(** * NewsTwitterAgent: the ranking, rewrite and publish stages of [main.py]

    A shallow embedding of the pipeline of [src/main.py] (fetch,
    prioritize, rewrite, post), of the graph that chains the four nodes and
    of [main], with the properties the specification states about them and
    further properties read off the code.

    Modelling conventions.
    - A Python [str] is a Rocq [string]; one [ascii] stands for one character
      (a code point below 256).  Where the code works on a string character by
      character ([strip], [re.sub], slicing, [lower]) the model goes through
      [list ascii].
    - A Python [int] is a [Z].  The priority score is a Python [float] whose
      values are sums of small integers (exactly representable), so it is a
      [Z] as well.
    - [dict] values are [gmap]s ([TRUSTED_SOURCES], [os.environ]).
    - [Optional[T]] is [option T]; a [TypedDict] with [total=False] is a record
      of options read with [state.get(key, default)].
    - External collaborators (the ISO-8601 parser of [datetime], the wall
      clock, HTTP, the two tweepy clients) are parameters; what they are asked
      and what the file system holds is recorded in an explicit [world].
    - Console output ([print]) is not modelled. *)

From Stdlib Require Import ZArith QArith Lia Lqa Ascii String List.
From stdpp Require Import base option list gmap strings sorting pretty.

Local Open Scope string_scope.

(** ** Python strings *)

Module PyStr.

(** [bool(s)] for a string: the empty string is false. *)
Definition truthy (s : string) : bool :=
  match s with EmptyString => false | String _ _ => true end.

(** [bool(x)] for an [Optional[str]]: [None] and [""] are false. *)
Definition truthy_opt (o : option string) : bool :=
  match o with Some s => truthy s | None => false end.

(** [s.replace(c, r)] for a one-character pattern [c]. *)
Fixpoint replace_char (c : ascii) (r : string) (s : string) : string :=
  match s with
  | EmptyString => EmptyString
  | String d s' =>
      if Ascii.eqb d c then r ++ replace_char c r s'
      else String d (replace_char c r s')
  end.

(** [str.isspace] on one character, for code points below 256:
    TAB, LF, VT, FF, CR, FS, GS, RS, US, SPACE, NEL (0x85), NBSP (0xA0). *)
Definition isspace (c : ascii) : bool :=
  let n := nat_of_ascii c in
  (((9 <=? n) && (n <=? 13)) || ((28 <=? n) && (n <=? 32))
   || (n =? 133) || (n =? 160))%nat.

Fixpoint lstrip (s : list ascii) : list ascii :=
  match s with
  | c :: s' => if isspace c then lstrip s' else s
  | [] => []
  end.

Definition rstrip (s : list ascii) : list ascii := rev (lstrip (rev s)).

(** [s.strip()] *)
Definition strip (s : list ascii) : list ascii := rstrip (lstrip s).

(** [str.lower] on one character, for code points below 256: the ASCII
    capitals and the Latin-1 capitals 0xC0-0xDE (0xD7, the multiplication
    sign, apart) move up by 32; every other character is unchanged. *)
Definition lower_char (c : ascii) : ascii :=
  let n := nat_of_ascii c in
  if (((65 <=? n) && (n <=? 90))
      || ((192 <=? n) && (n <=? 222) && negb (n =? 215)))%nat
  then ascii_of_nat (n + 32) else c.

(** [s.lower()] *)
Fixpoint lower (s : string) : string :=
  match s with
  | EmptyString => EmptyString
  | String c s' => String (lower_char c) (lower s')
  end.

(** [xs[:n]] for a Python integer [n]: a negative [n] counts from the end. *)
Definition slice_to {A} (n : Z) (l : list A) : list A :=
  if (0 <=? n)%Z then take (Z.to_nat n) l
  else take (length l - Z.to_nat (- n)) l.

(** The line feed of [f"{tweet}\n\n{article.url}"]. *)
Definition LF : ascii := ascii_of_nat 10.

End PyStr.

(** ** State and models *)

Record Article := mkArticle {
  title : string;
  description : string;
  source : string;
  author : option string;
  url : string;
  published_at : string;
  image_url : option string;
  priority_score : Z;
  priority_reason : string
}.

Record TweetResult := mkTweetResult {
  tweet_text : string;
  tweet_id : option string;
  tweet_url : option string;
  success : bool;
  error : option string
}.

(** [auto_post] is declared [bool] but read as "string or bool". *)
Inductive auto_post_value :=
| AutoPostBool (b : bool)
| AutoPostStr (s : string).

(** [GraphState] is a [TypedDict] with [total=False]: every key may be
    missing. *)
Record GraphState := mkGraphState {
  topic : option string;
  articles : option (list Article);
  top_articles : option (list Article);
  rewritten_tweets : option (list string);
  auto_post : option auto_post_value;
  num_tweets_to_post : option Z;
  tweet_results : option (list TweetResult)
}.

(** ** Scoring helpers *)

(** The literal of [TRUSTED_SOURCES], in source order. *)
Definition TRUSTED_SOURCES_items : list (string * Z) :=
  [ ("BBC News", 10); ("Reuters", 10); ("Associated Press", 10);
    ("The Guardian", 9); ("CNN", 8); ("The New York Times", 9);
    ("Al Jazeera", 8); ("The Washington Post", 9); ("Bloomberg", 8);
    ("CNBC", 7); ("Financial Times", 9); ("NPR", 8);
    ("The Wall Street Journal", 9) ]%Z.

Definition TRUSTED_SOURCES : gmap string Z := list_to_map TRUSTED_SOURCES_items.

(** [TRUSTED_SOURCES.get(article.source, 5)] *)
Definition source_score (src : string) : Z :=
  default 5%Z (TRUSTED_SOURCES !! src).

(** What [datetime.fromisoformat] returns: an aware datetime (an instant,
    in microseconds since the epoch) or a naive one (a wall-clock reading
    with no offset). *)
Inductive datetime :=
| Aware (utc_us : Z)
| Naive (wall_us : Z).

(** [(now - pub_date).total_seconds() / 3600], in exact arithmetic.  A
    [timedelta] counts whole microseconds; the two float roundings of the
    source (division by 10^6, then by 3600) are monotone and keep every
    microsecond count on its side of 6, 24, 48 and 168 hours, so the
    comparisons below decide as the source's do. *)
Definition hours_between (now_us pub_us : Z) : Q :=
  Qmake (now_us - pub_us) 3600000000.

(** The [if]/[elif] chain of [calculate_recency_score]. *)
Definition recency_of_hours (hours_old : Q) : Z :=
  if Qle_bool hours_old 6 then 10
  else if Qle_bool hours_old 24 then 8
  else if Qle_bool hours_old 48 then 6
  else if Qle_bool hours_old 168 then 4
  else 2.

(** [2.0 if url else 0.0] *)
Definition has_image_bonus (u : option string) : Z :=
  if PyStr.truthy_opt u then 2 else 0.

Section Scoring.

(** [datetime.fromisoformat]: [None] stands for the [ValueError] it raises
    on a string it cannot parse. *)
Variable fromisoformat : string -> option datetime.

(** [calculate_recency_score], with the instant [datetime.now(timezone.utc)]
    returns passed in.  Subtracting a naive datetime from the aware [now]
    raises [TypeError]; the bare [except] answers 3 for that and for a
    parse error alike. *)
Definition calculate_recency_score (now_us : Z) (published : string) : Z :=
  match fromisoformat (PyStr.replace_char "Z" "+00:00" published) with
  | Some (Aware pub_us) => recency_of_hours (hours_between now_us pub_us)
  | Some (Naive _) => 3
  | None => 3
  end.

(** The body of the [for] loop of [prioritize_articles], for one article. *)
Definition score_article (now_us : Z) (a : Article) : Article :=
  let src_score := source_score (source a) in
  let recency := calculate_recency_score now_us (published_at a) in
  let total := (src_score + recency + has_image_bonus (image_url a))%Z in
  {| title := title a; description := description a; source := source a;
     author := author a; url := url a; published_at := published_at a;
     image_url := image_url a;
     priority_score := total;
     priority_reason :=
       "source=" ++ pretty src_score ++ ", recency=" ++ pretty recency |}.

End Scoring.

(** ** Node 2: prioritize *)

Section Sorted.

Context {A : Type} (key : A -> Z).

(** [x] enters a list that is already in descending key order: it passes
    the elements whose key is strictly greater and stops in front of the
    first one whose key is not. *)
Fixpoint insert_desc (x : A) (l : list A) : list A :=
  match l with
  | [] => [x]
  | y :: l' => if (key x <? key y)%Z then y :: insert_desc x l' else x :: l
  end.

(** [sorted(l, key=key, reverse=True)].  Python's [sorted] is stable, also
    with [reverse=True]; a stable sort has one possible result
    ([stable_sort_unique] below), which this insertion sort computes. *)
Definition sorted_desc (l : list A) : list A := foldr insert_desc [] l.

End Sorted.

Section Prioritize.

Variable fromisoformat : string -> option datetime.

(** [utc_now i] is what [datetime.now(timezone.utc)] returns while the
    article at index [i] is scored. *)
Variable utc_now : nat -> Z.

(** The [for] loop: every article receives its score and reason. *)
Definition score_articles (l : list Article) : list Article :=
  imap (fun i a => score_article fromisoformat (utc_now i) a) l.

Definition prioritize_articles (state : GraphState) : list Article :=
  let scored := score_articles (default [] (articles state)) in
  let sorted_articles := sorted_desc priority_score scored in
  PyStr.slice_to 5 sorted_articles.

End Prioritize.

(** ** Node 3: rewrite *)

(** [re.sub(r'\[([^\]]+)\]\([^)]+\)', r'\1', s)] *)
Module Re.

(** The longest prefix free of [stop], and what follows it: how a greedy
    negated class [[^stop]+] reads its input. *)
Fixpoint span_until (stop : ascii) (s : list ascii) : list ascii * list ascii :=
  match s with
  | [] => ([], [])
  | c :: s' =>
      if Ascii.eqb c stop then ([], s)
      else let '(a, b) := span_until stop s' in (c :: a, b)
  end.

(** Reads a closing [stop] character. *)
Definition expect (stop : ascii) (s : list ascii) : option (list ascii) :=
  match s with
  | c :: s' => if Ascii.eqb c stop then Some s' else None
  | [] => None
  end.

(** A match of the pattern at the head of [s]: group 1 and the input left
    after the match.  Each class is followed by the one character it
    excludes, so giving back characters never helps: the greedy reading is
    the only candidate. *)
Definition match_link (s : list ascii) : option (list ascii * list ascii) :=
  s1 ← expect "[" s;
  let '(text, r1) := span_until "]" s1 in
  if decide (text = []) then None else
  r2 ← expect "]" r1;
  s2 ← expect "(" r2;
  let '(target, r3) := span_until ")" s2 in
  if decide (target = []) then None else
  rest ← expect ")" r3;
  Some (text, rest).

(** The scan of [re.sub]: at each position, a match is replaced by its
    group 1 and the scan resumes after it; otherwise the character is kept.
    A match is never empty, so [length s] steps are enough. *)
Fixpoint sub_links_fuel (fuel : nat) (s : list ascii) : list ascii :=
  match fuel with
  | O => s
  | S fuel' =>
      match s with
      | [] => []
      | c :: s' =>
          match match_link s with
          | Some (text, rest) => text ++ sub_links_fuel fuel' rest
          | None => c :: sub_links_fuel fuel' s'
          end
      end
  end.

Definition sub_links (s : list ascii) : list ascii :=
  sub_links_fuel (length s) s.

End Re.

(** The two post-processing lines of [rewrite_news]:
    [re.sub(..., output.content.strip())] and [tweet_text[:250]]. *)
Definition clean_tweet (content : string) : string :=
  let tweet_text := Re.sub_links (PyStr.strip (list_ascii_of_string content)) in
  string_of_list_ascii (PyStr.slice_to 250 tweet_text).

Definition rewrite_prompt (a : Article) : string :=
  "Write a factual, engaging tweet (max 250 characters, no URLs/markdown). "
  ++ "Summarize the key point and make it eye-catching."
  ++ String PyStr.LF (String PyStr.LF
       ("Title: " ++ title a ++ String PyStr.LF
          ("Description: " ++ description a ++ String PyStr.LF
             ("Source: " ++ source a)))).

Section Rewrite.

(** [llm.ainvoke] on the system message and the prompt: the content of the
    reply, or [None] when the call raises. *)
Variable llm_ainvoke : string -> string -> option string.

(** [rewrite_news]; [None] when a model call raises (nothing catches it). *)
Fixpoint rewrite_each (l : list Article) : option (list string) :=
  match l with
  | [] => Some []
  | a :: l' =>
      content ← llm_ainvoke
        "You are an expert journalist summarizing news for social media."
        (rewrite_prompt a);
      rest ← rewrite_each l';
      Some (clean_tweet content :: rest)
  end.

Definition rewrite_news (state : GraphState) : option (list string) :=
  rewrite_each (default [] (top_articles state)).

End Rewrite.

(** ** Node 4: post to Twitter *)

(** A request made to a collaborator. *)
Inductive event :=
| HttpGet (target : string)
| MediaUpload (filename : nat)
| CreateTweet (text : string) (media_ids : option (list Z)).

(** What the stage can change outside its own variables: the requests made
    so far (oldest first), the temporary files on disk (name to bytes) and
    the names that have an open handle. *)
Record world := mkWorld {
  calls : list event;
  tmp_files : gmap nat string;
  open_files : gset nat
}.

(** [requests.get(url, timeout=10)] *)
Inductive http_outcome :=
| HttpRaised (msg : string)
| HttpResponse (status_code : Z) (content : string).

(** [twitter_api_v1.media_upload(filename)]: [media.media_id], or an
    exception. *)
Inductive upload_outcome :=
| UploadRaised (msg : string)
| UploadDone (media_id : Z).

(** [twitter_client.create_tweet(...)] followed by [resp.data["id"]]: the id,
    or [str(e)] of the exception either of them raised. *)
Inductive tweet_outcome :=
| TweetRaised (msg : string)
| TweetCreated (id : string).

(** The collaborators.  Each answer may depend on every request made before
    it; the upload also sees the disk, since it opens the file by name.  The
    two module-level clients are [None] when their construction failed. *)
Record collaborators := mkCollaborators {
  requests_get : list event -> string -> http_outcome;
  twitter_client :
    option (list event -> string -> option (list Z) -> tweet_outcome);
  twitter_api_v1 :
    option (list event -> gmap nat string -> nat -> upload_outcome)
}.

Definition record_call (e : event) (w : world) : world :=
  {| calls := calls w ++ [e]; tmp_files := tmp_files w;
     open_files := open_files w |}.

(** [tempfile.NamedTemporaryFile(suffix=".jpg", delete=...)]: the handle
    remembers the name, which is new on the disk, and the [delete] flag. *)
Record tmp_handle := mkTmp { tmp_name : nat; tmp_delete : bool }.

Definition NamedTemporaryFile (delete : bool) (w : world)
  : tmp_handle * world :=
  let name := fresh (dom (tmp_files w)) in
  ({| tmp_name := name; tmp_delete := delete |},
   {| calls := calls w; tmp_files := <[name := ""]> (tmp_files w);
      open_files := {[name]} ∪ open_files w |}).

(** [tmp.write(bytes); tmp.flush()] *)
Definition tmp_write (h : tmp_handle) (bytes : string) (w : world) : world :=
  {| calls := calls w; tmp_files := <[tmp_name h := bytes]> (tmp_files w);
     open_files := open_files w |}.

(** Leaving the [with] block closes the handle; the file is removed from the
    disk only when the handle was made with [delete=True]. *)
Definition tmp_exit (h : tmp_handle) (w : world) : world :=
  {| calls := calls w;
     tmp_files := if tmp_delete h then delete (tmp_name h) (tmp_files w)
                  else tmp_files w;
     open_files := open_files w ∖ {[tmp_name h]} |}.

(** [f"{tweet}\n\n{article.url}"] *)
Definition full_tweet (tweet : string) (a : Article) : string :=
  tweet ++ String PyStr.LF (String PyStr.LF (url a)).

(** [TweetResult(tweet_text=t, success=False, error="Auto-post disabled")] *)
Definition preview_result (t : string) : TweetResult :=
  {| tweet_text := t; tweet_id := None; tweet_url := None;
     success := false; error := Some "Auto-post disabled" |}.

Definition posted_result (text id : string) : TweetResult :=
  {| tweet_text := text; tweet_id := Some id;
     tweet_url := Some ("https://x.com/user/status/" ++ id);
     success := true; error := None |}.

Definition failed_result (text msg : string) : TweetResult :=
  {| tweet_text := text; tweet_id := None; tweet_url := None;
     success := false; error := Some msg |}.

Section Publish.

Variable env : collaborators.

Section Live.

(** The two clients, once the stage has checked that they are there. *)
Variable client : list event -> string -> option (list Z) -> tweet_outcome.
Variable api_v1 : list event -> gmap nat string -> nat -> upload_outcome.

(** What [twitter_api_v1.media_upload(tmp.name)] answers when it is
    called inside the [with] block entered from world [w]: the file
    exists, holds the fetched bytes and its handle is open. *)
Definition media_upload_answer (bytes : string) (w : world) : upload_outcome :=
  let '(tmp, w1) := NamedTemporaryFile false w in
  let w2 := tmp_write tmp bytes w1 in
  api_v1 (calls w2) (tmp_files w2) (tmp_name tmp).

(** [with tempfile.NamedTemporaryFile(suffix=".jpg", delete=False) as tmp:]
    write, flush, upload.  The block is left, and the handle closed,
    whether the upload returns or raises. *)
Definition upload_from_tmp (bytes : string) (w : world) : option Z * world :=
  let '(tmp, w1) := NamedTemporaryFile false w in
  let w2 := tmp_write tmp bytes w1 in
  let w3 := record_call (MediaUpload (tmp_name tmp)) w2 in
  match media_upload_answer bytes w with
  | UploadDone media_id => (Some media_id, tmp_exit tmp w3)
  | UploadRaised _ => (None, tmp_exit tmp w3)
  end.

(** The image block, [if article.image_url: try: ... except Exception]:
    the media id it leaves in [media_id], [None] when there is none. *)
Definition try_image (a : Article) (w : world) : option Z * world :=
  match image_url a with
  | Some target =>
      if PyStr.truthy target then
        let w1 := record_call (HttpGet target) w in
        match requests_get env (calls w) target with
        | HttpResponse status bytes =>
            if (status =? 200)%Z then upload_from_tmp bytes w1
            else (None, w1)
        | HttpRaised _ => (None, w1)
        end
      else (None, w)
  | None => (None, w)
  end.

(** The argument of [create_tweet] chosen by [if media_id:]: a media id
    that is [None] or 0 is false and gives a text-only tweet. *)
Definition media_ids_of (media_id : option Z) : option (list Z) :=
  match media_id with
  | Some m => if (m =? 0)%Z then None else Some [m]
  | None => None
  end.

(** The posting block, [try: ... except Exception as e]. *)
Definition try_post (text : string) (media_id : option Z) (w : world)
  : TweetResult * world :=
  let ids := media_ids_of media_id in
  let w1 := record_call (CreateTweet text ids) w in
  match client (calls w) text ids with
  | TweetCreated id => (posted_result text id, w1)
  | TweetRaised msg => (failed_result text msg, w1)
  end.

(** One turn of the [for] loop over the pairs. *)
Definition publish_one (tweet : string) (a : Article) (w : world)
  : TweetResult * world :=
  let text := full_tweet tweet a in
  let '(media_id, w1) := try_image a w in
  try_post text media_id w1.

(** The [for] loop over [zip(tweets_to_post, articles_to_post)]. *)
Fixpoint publish_pairs (pairs : list (string * Article)) (w : world)
  : list TweetResult * world :=
  match pairs with
  | [] => ([], w)
  | (tweet, a) :: rest =>
      let '(r, w1) := publish_one tweet a w in
      let '(rs, w2) := publish_pairs rest w1 in
      (r :: rs, w2)
  end.

(** The world in which each pair of the loop is attempted. *)
Fixpoint worlds_before (pairs : list (string * Article)) (w : world)
  : list world :=
  match pairs with
  | [] => []
  | (tweet, a) :: rest => w :: worlds_before rest (publish_one tweet a w).2
  end.

End Live.

(** How [post_to_twitter] reads [auto_post]: a string is compared, in lower
    case, with ["true"]; a bool is taken as it is; a missing key is
    [False]. *)
Definition read_auto_post (state : GraphState) : bool :=
  match auto_post state with
  | Some (AutoPostStr s) => String.eqb (PyStr.lower s) "true"
  | Some (AutoPostBool b) => b
  | None => false
  end.

(** [int(state.get("num_tweets_to_post", 1))] *)
Definition read_num_to_post (state : GraphState) : Z :=
  default 1%Z (num_tweets_to_post state).

(** [post_to_twitter]: the exception it raises ([inl]) or the list it
    returns under ["tweet_results"] ([inr]), and the world it leaves. *)
Definition post_to_twitter (state : GraphState) (w : world)
  : (string + list TweetResult) * world :=
  let tweets := default [] (rewritten_tweets state) in
  let arts := default [] (top_articles state) in
  let num_to_post := read_num_to_post state in
  if negb (read_auto_post state) then
    (inr (map preview_result (PyStr.slice_to num_to_post tweets)), w)
  else
    match twitter_client env, twitter_api_v1 env with
    | Some client, Some api_v1 =>
        let tweets_to_post := PyStr.slice_to num_to_post tweets in
        let articles_to_post := PyStr.slice_to num_to_post arts in
        let '(rs, w') :=
          publish_pairs client api_v1 (zip tweets_to_post articles_to_post) w in
        (inr rs, w')
    | _, _ => (inl "Twitter clients not initialized properly", w)
    end.

End Publish.

(** ** Entry point *)

Section Main.

(** [int(s)] for a string [s]; [None] stands for [ValueError]. *)
Variable int_of_str : string -> option Z.

(** The [input_state] that [main] builds from [os.environ]; [None] when
    [int] rejects the value of [NUM_TWEETS_TO_POST]. *)
Definition main_input_state (environ : gmap string string)
  : option GraphState :=
  let topic_ := default "india" (environ !! "NEWS_TOPIC") in
  let auto_post_ :=
    String.eqb (PyStr.lower (default "false" (environ !! "AUTO_POST_TWEETS")))
               "true" in
  num_tweets ← int_of_str (default "2" (environ !! "NUM_TWEETS_TO_POST"));
  Some {| topic := Some topic_; articles := Some []; top_articles := Some [];
          rewritten_tweets := Some [];
          auto_post := Some (AutoPostBool auto_post_);
          num_tweets_to_post := Some num_tweets;
          tweet_results := Some [] |}.

End Main.

(** ** Node 1: fetch news *)

(** What a Python statement can raise here, by the class of the exception:
    the [ValueError] that [fetch_news] raises itself, the [ValueError] of
    [int] on a string it rejects, [TypeError], [AttributeError], pydantic's
    [ValidationError], the [Exception] that [post_to_twitter] raises itself,
    and whatever the news API or the model call raised. *)
Inductive exn :=
| ValueError (msg : string)
| IntValueError (literal : string)
| TypeError
| AttributeError
| ValidationError
| PlainException (msg : string)
| NewsError (msg : string)
| ModelError.

(** A key of a JSON object as [dict.get] meets it: missing, present with
    [null], or present with a value. *)
Inductive json_key (A : Type) :=
| KeyMissing
| KeyNull
| KeyValue (a : A).

Arguments KeyMissing {A}.
Arguments KeyNull {A}.
Arguments KeyValue {A} a.

(** [d.get(key)]: [None] for a missing key and for [null]. *)
Definition dict_get {A} (k : json_key A) : option A :=
  match k with KeyValue a => Some a | _ => None end.

(** [d.get(key, default)]: the default stands in for a missing key only; a
    key that is there with [null] gives [None]. *)
Definition dict_get_or {A} (k : json_key A) (default : A) : option A :=
  match k with
  | KeyMissing => Some default
  | KeyNull => None
  | KeyValue a => Some a
  end.

(** A record of the ["articles"] list of the news API: each key, when it
    has a value, holds a string, and ["source"] an object with a ["name"]. *)
Record raw_article := mkRawArticle {
  raw_title : json_key string;
  raw_description : json_key string;
  raw_source : json_key (json_key string);
  raw_author : json_key string;
  raw_url : json_key string;
  raw_publishedAt : json_key string;
  raw_urlToImage : json_key string
}.

(** [Article(title=..., ...)] with the score fields left to their defaults:
    pydantic rejects [None] for a field declared [str]. *)
Definition Article_init (title_ description_ source_ : option string)
    (author_ : option string) (url_ published_at_ : option string)
    (image_url_ : option string) : exn + Article :=
  match title_, description_, source_, url_, published_at_ with
  | Some t, Some d, Some s, Some u, Some p =>
      inr {| title := t; description := d; source := s; author := author_;
             url := u; published_at := p; image_url := image_url_;
             priority_score := 0; priority_reason := "" |}
  | _, _, _, _, _ => inl ValidationError
  end.

(** [article.get("source", {}).get("name", "Unknown")]: a [null] source has
    no [get]. *)
Definition source_name (r : raw_article) : exn + option string :=
  match raw_source r with
  | KeyMissing => inr (Some "Unknown")
  | KeyNull => inl AttributeError
  | KeyValue obj => inr (dict_get_or obj "Unknown")
  end.

(** The [Article(...)] expression of the loop: the arguments are evaluated
    first (only the source can raise there), then the model is validated. *)
Definition article_of_raw (r : raw_article) : exn + Article :=
  match source_name r with
  | inl e => inl e
  | inr name =>
      Article_init (dict_get_or (raw_title r) "")
        (dict_get_or (raw_description r) "") name
        (dict_get (raw_author r))
        (dict_get_or (raw_url r) "")
        (dict_get_or (raw_publishedAt r) "")
        (dict_get (raw_urlToImage r))
  end.

(** [if article.get("title")] *)
Definition has_title (r : raw_article) : bool :=
  PyStr.truthy_opt (dict_get (raw_title r)).

(** The [for] loop over the records: the first exception ends it, and with
    it the function. *)
Fixpoint collect_articles (records : list raw_article) : exn + list Article :=
  match records with
  | [] => inr []
  | r :: rest =>
      if has_title r then
        match article_of_raw r with
        | inl e => inl e
        | inr a =>
            match collect_articles rest with
            | inl e => inl e
            | inr l => inr (a :: l)
            end
        end
      else collect_articles rest
  end.

(** [session.get(url)] and [resp.json()]: an exception, or the object, of
    which only the ["articles"] key is read. *)
Inductive news_outcome :=
| NewsRaised (msg : string)
| NewsJson (articles_key : json_key (list raw_article)).

(** The request line of [fetch_news]. *)
Definition news_url (topic_ api_key : string) : string :=
  "https://newsapi.org/v2/everything?q=" ++ topic_
  ++ "&language=en&pageSize=20&sortBy=publishedAt&apiKey=" ++ api_key.

Section Fetch.

(** [os.environ], after [load_dotenv]. *)
Variable environ : gmap string string.

(** The news API, asked with a URL. *)
Variable news_get : string -> news_outcome.

(** [fetch_news]: the exception it raises or the list it returns under
    ["articles"], and the URLs it has requested. *)
Definition fetch_news (state : GraphState)
  : (exn + list Article) * list string :=
  let topic_ := default "india" (topic state) in
  match environ !! "News_Api_Key" with
  | Some api_key =>
      if PyStr.truthy api_key then
        let request := news_url topic_ api_key in
        (match news_get request with
         | NewsRaised msg => inl (NewsError msg)
         | NewsJson KeyMissing => inr []
         | NewsJson KeyNull => inl TypeError
         | NewsJson (KeyValue records) => collect_articles records
         end, [request])
      else (inl (ValueError "Missing News_Api_Key in .env"), [])
  | None => (inl (ValueError "Missing News_Api_Key in .env"), [])
  end.

End Fetch.

(** ** The graph and the entry point *)

(** A node's return value written into the state: the key it names is
    replaced, the others stay. *)
Definition set_articles (l : list Article) (st : GraphState) : GraphState :=
  {| topic := topic st; articles := Some l; top_articles := top_articles st;
     rewritten_tweets := rewritten_tweets st; auto_post := auto_post st;
     num_tweets_to_post := num_tweets_to_post st;
     tweet_results := tweet_results st |}.

Definition set_top_articles (l : list Article) (st : GraphState) : GraphState :=
  {| topic := topic st; articles := articles st; top_articles := Some l;
     rewritten_tweets := rewritten_tweets st; auto_post := auto_post st;
     num_tweets_to_post := num_tweets_to_post st;
     tweet_results := tweet_results st |}.

Definition set_rewritten_tweets (l : list string) (st : GraphState)
  : GraphState :=
  {| topic := topic st; articles := articles st;
     top_articles := top_articles st; rewritten_tweets := Some l;
     auto_post := auto_post st;
     num_tweets_to_post := num_tweets_to_post st;
     tweet_results := tweet_results st |}.

Section Graph.

Variable environ : gmap string string.
Variable news_get : string -> news_outcome.
Variable fromisoformat : string -> option datetime.
Variable utc_now : nat -> Z.
Variable llm_ainvoke : string -> string -> option string.
Variable env : collaborators.

(** [graph.ainvoke(input_state)]: the four nodes along the edges
    START, fetch_news, prioritize_articles, rewrite_news, post_to_twitter,
    END, each seeing the state with the keys the earlier nodes returned.
    An exception of a node ends the run.  Of the final state, the values of
    ["rewritten_tweets"] and ["tweet_results"] are given, which is what
    [main] reads. *)
Definition run_graph (input_state : GraphState) (w : world)
  : (exn + list string * list TweetResult) * world :=
  match (fetch_news environ news_get input_state).1 with
  | inl e => (inl e, w)
  | inr fetched =>
      let st1 := set_articles fetched input_state in
      let st2 :=
        set_top_articles (prioritize_articles fromisoformat utc_now st1) st1 in
      match rewrite_news llm_ainvoke st2 with
      | None => (inl ModelError, w)
      | Some posts =>
          let st3 := set_rewritten_tweets posts st2 in
          match post_to_twitter env st3 w with
          | (inl msg, w') => (inl (PlainException msg), w')
          | (inr results, w') => (inr (posts, results), w')
          end
      end
  end.

(** [sum(1 for r in result['tweet_results'] if r.success)] *)
Definition count_posted (results : list TweetResult) : nat :=
  length (filter (fun r => success r = true) results).

Section Main.

Variable int_of_str : string -> option Z.

(** [main]: the exception that ends it, or the two numbers it prints,
    "Tweets generated" and "Tweets posted". *)
Definition main (w : world) : (exn + nat * nat) * world :=
  match main_input_state int_of_str environ with
  | None =>
      (inl (IntValueError (default "2" (environ !! "NUM_TWEETS_TO_POST"))), w)
  | Some input_state =>
      match run_graph input_state w with
      | (inl e, w') => (inl e, w')
      | (inr (posts, results), w') =>
          (inr (length posts, count_posted results), w')
      end
  end.

End Main.

End Graph.

(** ** Notions used to state the properties *)

(** [sub in s]: [sub] is a contiguous part of [s]. *)
Definition occurs_in (sub s : list ascii) : Prop :=
  exists before after, s = (before ++ sub ++ after)%list.

(** The invariant of a publish result: it is a success exactly when it has
    an id and a URL and no error, and a failure exactly when it has neither
    id nor URL. *)
Definition result_invariant (r : TweetResult) : Prop :=
  (success r = true <->
   is_Some (tweet_id r) /\ is_Some (tweet_url r) /\ error r = None)
  /\ (success r = false <-> tweet_id r = None /\ tweet_url r = None).

(** The strings that are "true" up to the case of their letters. *)
Definition equals_true_ignoring_case (s : string) : Prop :=
  exists c1 c2 c3 c4 : ascii,
    s = String c1 (String c2 (String c3 (String c4 EmptyString)))
    /\ (c1 = "t" \/ c1 = "T")%char /\ (c2 = "r" \/ c2 = "R")%char
    /\ (c3 = "u" \/ c3 = "U")%char /\ (c4 = "e" \/ c4 = "E")%char.

(** The image fetch of [try_image] for article [a] from world [w] does not
    end in a media id: the fetch raises, answers another status than 200,
    or the upload raises. *)
Definition image_attempt_fails (env : collaborators)
    (api_v1 : list event -> gmap nat string -> nat -> upload_outcome)
    (a : Article) (w : world) : Prop :=
  exists target,
    image_url a = Some target /\ target <> ""
    /\ match requests_get env (calls w) target with
       | HttpRaised _ => True
       | HttpResponse status bytes =>
           status <> 200%Z
           \/ exists msg,
               media_upload_answer api_v1 bytes
                 (record_call (HttpGet target) w) = UploadRaised msg
       end.

(** The list a run of the stage returns, empty when the stage raises. *)
Definition stage_results (run : (string + list TweetResult) * world)
  : list TweetResult :=
  match run.1 with inr rs => rs | inl _ => [] end.

Definition is_create_tweet (e : event) : bool :=
  match e with CreateTweet _ _ => true | _ => false end.

(** The number of requests to create a tweet made so far. *)
Definition post_attempts (w : world) : nat :=
  length (filter (fun e => is_create_tweet e = true) (calls w)).

(** A record is usable when the keys that feed a [str] field are not
    [null]: the source and its name, the description, the URL and the
    publication time.  (The author and the image may be [null].) *)
Definition usable_record (r : raw_article) : Prop :=
  raw_source r <> KeyNull
  /\ raw_source r <> KeyValue KeyNull
  /\ raw_description r <> KeyNull
  /\ raw_url r <> KeyNull
  /\ raw_publishedAt r <> KeyNull.

(** The state that [post_to_twitter] sees in a run of the graph: the input
    with the three lists the earlier nodes returned. *)
Definition publish_state (fromisoformat : string -> option datetime)
    (utc_now : nat -> Z) (input_state : GraphState)
    (fetched : list Article) (posts : list string) : GraphState :=
  let st1 := set_articles fetched input_state in
  set_rewritten_tweets posts
    (set_top_articles (prioritize_articles fromisoformat utc_now st1) st1).

(** ** Stand-ins for the collaborators, used by the examples *)

(** A parser that knows four timestamps: three with an offset and one
    without. *)
Definition sample_fromisoformat (s : string) : option datetime :=
  if String.eqb s "2024-05-01T11:00:00+00:00"
  then Some (Aware 1714561200000000)
  else if String.eqb s "2024-05-01T06:00:00+00:00"
  then Some (Aware 1714543200000000)
  else if String.eqb s "2024-04-21T12:00:00+00:00"
  then Some (Aware 1713700800000000)
  else if String.eqb s "2024-05-01T11:00:00"
  then Some (Naive 1714561200000000)
  else None.

(** 2024-05-01T12:00:00Z, in microseconds since the epoch. *)
Definition sample_now : Z := 1714564800000000.

Definition sample_article (src published : string) (image : option string)
  : Article :=
  {| title := "Headline"; description := "Body"; source := src;
     author := None; url := "https://news.example/item";
     published_at := published; image_url := image;
     priority_score := 0; priority_reason := "" |}.

Definition empty_world : world :=
  {| calls := []; tmp_files := ∅; open_files := ∅ |}.

(** No client was built and every fetch raises. *)
Definition offline_env : collaborators :=
  {| requests_get := fun _ _ => HttpRaised "connection refused";
     twitter_client := None; twitter_api_v1 := None |}.

(** A post is refused while fewer than three requests have been made, and
    created afterwards. *)
Definition flaky_client (history : list event) (text : string)
    (media_ids : option (list Z)) : tweet_outcome :=
  if (length history <? 3)%nat then TweetRaised "403 Forbidden"
  else TweetCreated "1001".

(** Every upload raises. *)
Definition flaky_api (history : list event) (disk : gmap nat string)
    (filename : nat) : upload_outcome :=
  UploadRaised "media type unrecognized".

(** One image can be fetched, the others are not found. *)
Definition flaky_env : collaborators :=
  {| requests_get := fun _ target =>
       if String.eqb target "https://img.example/a.jpg"
       then HttpResponse 200 "JPEG" else HttpResponse 404 "";
     twitter_client := Some flaky_client;
     twitter_api_v1 := Some flaky_api |}.

Definition healthy_api (history : list event) (disk : gmap nat string)
    (filename : nat) : upload_outcome :=
  UploadDone 7.

(** Every fetch, upload and post succeeds. *)
Definition healthy_env : collaborators :=
  {| requests_get := fun _ _ => HttpResponse 200 "JPEG";
     twitter_client := Some (fun _ _ _ => TweetCreated "1001");
     twitter_api_v1 := Some healthy_api |}.

Definition sample_bbc : Article :=
  sample_article "BBC News" "2024-05-01T11:00:00Z"
    (Some "https://img.example/a.jpg").

Definition sample_cnn : Article :=
  sample_article "CNN" "2024-05-01T06:00:00Z"
    (Some "https://img.example/b.jpg").

Definition sample_blog : Article :=
  sample_article "Some Blog" "2024-04-21T12:00:00Z" None.

(** Three ranked articles and their three posts. *)
Definition sample_state (auto : option auto_post_value) (n : option Z)
  : GraphState :=
  {| topic := Some "india"; articles := None;
     top_articles := Some [sample_bbc; sample_cnn; sample_blog];
     rewritten_tweets := Some ["first"; "second"; "third"];
     auto_post := auto; num_tweets_to_post := n; tweet_results := None |}.

(** A reading of decimal digits, standing in for [int] in the examples. *)
Fixpoint sample_digits (acc : Z) (s : string) : option Z :=
  match s with
  | EmptyString => Some acc
  | String c s' =>
      let n := nat_of_ascii c in
      if ((48 <=? n) && (n <=? 57))%nat
      then sample_digits (10 * acc + Z.of_nat (n - 48)) s'
      else None
  end.

Definition sample_int (s : string) : option Z :=
  match s with
  | EmptyString => None
  | _ => sample_digits 0 s
  end.

(** A raw record of the news API with the given title and description. *)
Definition sample_raw (t d : json_key string) : raw_article :=
  {| raw_title := t; raw_description := d;
     raw_source := KeyValue (KeyValue "BBC News");
     raw_author := KeyNull;
     raw_url := KeyValue "https://news.example/item";
     raw_publishedAt := KeyValue "2024-05-01T11:00:00Z";
     raw_urlToImage := KeyNull |}.

(** A well-formed record, one without a title (and without a description),
    and one with a title whose description is [null]. *)
Definition sample_raw_good : raw_article :=
  sample_raw (KeyValue "Headline") (KeyValue "Body").

Definition sample_raw_untitled : raw_article := sample_raw KeyNull KeyNull.

Definition sample_raw_bad : raw_article :=
  sample_raw (KeyValue "Headline") KeyNull.

(** An environment that has the API key and nothing else. *)
Definition sample_environ : gmap string string := {[ "News_Api_Key" := "k3y" ]}.

(** A news API that answers every request with the same records. *)
Definition sample_news (records : list raw_article) (request : string)
  : news_outcome :=
  NewsJson (KeyValue records).

(** A model that always gives the same reply. *)
Definition sample_llm (system prompt : string) : option string :=
  Some "  Big [news](https://t.co/x) today  ".

(** ** Proof tools *)

(** The cases of [result_invariant] on a record written out. *)
Ltac result_invariant_cases :=
  unfold result_invariant; simpl;
  repeat split;
  try discriminate; try done; try (by eexists);
  try (by intros [[? ?] _]); try (by intros [? _]).

(** A fact about [lower_char], checked on each of the 256 characters. *)
Ltac lower_char_cases c :=
  destruct c as [[] [] [] [] [] [] [] []]; vm_compute;
  (split; [intros H; first [discriminate H | auto]
          | intros [H|H]; first [discriminate H | reflexivity]]).

(** * Properties *)

Local Open Scope list_scope.

(** ** Python strings and slices *)

Lemma slice_to_nonneg {A} (n : Z) (l : list A) :
  (0 <= n)%Z -> PyStr.slice_to n l = take (Z.to_nat n) l.
Proof.
  intros Hn. unfold PyStr.slice_to.
  destruct (Z.leb_spec 0 n) as [_|Hlt]; [reflexivity | lia].
Qed.

Lemma slice_to_length_nonneg {A} (n : Z) (l : list A) :
  (0 <= n)%Z -> length (PyStr.slice_to n l) = Nat.min (Z.to_nat n) (length l).
Proof. intros Hn. rewrite slice_to_nonneg by done. apply length_take. Qed.

(** ** The scoring helpers *)

Lemma TRUSTED_SOURCES_NoDup : NoDup (TRUSTED_SOURCES_items.*1).
Proof. apply (bool_decide_unpack _). vm_compute. reflexivity. Qed.

Lemma source_score_listed (src : string) (v : Z) :
  (src, v) ∈ TRUSTED_SOURCES_items -> source_score src = v.
Proof.
  intros Hin. unfold source_score, TRUSTED_SOURCES.
  apply (elem_of_list_to_map (M := gmap string)) in Hin;
    [| apply TRUSTED_SOURCES_NoDup].
  rewrite Hin. reflexivity.
Qed.

Lemma source_score_unlisted (src : string) :
  src ∉ TRUSTED_SOURCES_items.*1 -> source_score src = 5%Z.
Proof.
  intros Hnot. unfold source_score, TRUSTED_SOURCES.
  apply (not_elem_of_list_to_map_1 (M := gmap string)) in Hnot.
  rewrite Hnot. reflexivity.
Qed.

Lemma source_score_range (src : string) :
  source_score src ∈ [5; 7; 8; 9; 10]%Z.
Proof.
  destruct (decide (src ∈ TRUSTED_SOURCES_items.*1)) as [Hin|Hnot].
  - apply list_elem_of_fmap in Hin as ([k v] & -> & Hin).
    simpl. rewrite (source_score_listed _ _ Hin).
    unfold TRUSTED_SOURCES_items in Hin.
    repeat (apply elem_of_cons in Hin as [Heq|Hin];
            [injection Heq as _ ->; set_solver |]).
    by apply elem_of_nil in Hin.
  - rewrite source_score_unlisted by done. set_solver.
Qed.

Lemma has_image_bonus_cases (u : option string) :
  (u = None \/ u = Some "" -> has_image_bonus u = 0%Z)
  /\ (forall s, u = Some s -> s <> "" -> has_image_bonus u = 2%Z).
Proof.
  split.
  - intros [-> | ->]; reflexivity.
  - intros s -> Hs. destruct s; [done | reflexivity].
Qed.

Lemma recency_of_hours_cases (h : Q) :
  ((h <= 6)%Q -> recency_of_hours h = 10%Z)
  /\ ((6 < h)%Q /\ (h <= 24)%Q -> recency_of_hours h = 8%Z)
  /\ ((24 < h)%Q /\ (h <= 48)%Q -> recency_of_hours h = 6%Z)
  /\ ((48 < h)%Q /\ (h <= 168)%Q -> recency_of_hours h = 4%Z)
  /\ ((168 < h)%Q -> recency_of_hours h = 2%Z).
Proof.
  unfold recency_of_hours.
  destruct (Qle_bool h 6) eqn:E6;
    [apply Qle_bool_iff in E6 | apply not_true_iff_false in E6;
                                rewrite Qle_bool_iff in E6];
  (destruct (Qle_bool h 24) eqn:E24;
    [apply Qle_bool_iff in E24 | apply not_true_iff_false in E24;
                                 rewrite Qle_bool_iff in E24]);
  (destruct (Qle_bool h 48) eqn:E48;
    [apply Qle_bool_iff in E48 | apply not_true_iff_false in E48;
                                 rewrite Qle_bool_iff in E48]);
  (destruct (Qle_bool h 168) eqn:E168;
    [apply Qle_bool_iff in E168 | apply not_true_iff_false in E168;
                                  rewrite Qle_bool_iff in E168]);
  repeat split; intros; try reflexivity; exfalso; lra.
Qed.

Lemma recency_of_hours_antitone (h1 h2 : Q) :
  (h1 <= h2)%Q -> (recency_of_hours h2 <= recency_of_hours h1)%Z.
Proof.
  intros Hle. unfold recency_of_hours.
  repeat match goal with
  | |- context [Qle_bool ?a ?b] =>
      let E := fresh "E" in
      destruct (Qle_bool a b) eqn:E;
      [apply Qle_bool_iff in E
      | apply not_true_iff_false in E; rewrite Qle_bool_iff in E]
  end; first [lia | exfalso; lra].
Qed.

(** ** The stable descending sort *)

Section SortedFacts.

Context {A : Type} (key : A -> Z).

Local Abbreviation desc := (fun x y : A => (key y <= key x)%Z).
Local Abbreviation keyed k := (fun x : A => key x = k).

Lemma insert_desc_perm (x : A) (l : list A) : insert_desc key x l ≡ₚ x :: l.
Proof.
  induction l as [|y l IH]; simpl; [done|].
  destruct (key x <? key y)%Z; [|done].
  rewrite IH. apply Permutation_swap.
Qed.

Lemma sorted_desc_perm (l : list A) : sorted_desc key l ≡ₚ l.
Proof.
  induction l as [|x l IH]; simpl; [done|].
  rewrite insert_desc_perm. by f_equiv.
Qed.

Lemma insert_desc_sorted (x : A) (l : list A) :
  StronglySorted desc l -> StronglySorted desc (insert_desc key x l).
Proof.
  induction 1 as [|y l Hl IH Hy]; simpl.
  - repeat constructor.
  - destruct (Z.ltb_spec (key x) (key y)) as [Hlt|Hge].
    + constructor; [exact IH|].
      rewrite insert_desc_perm. constructor; [lia | exact Hy].
    + constructor; [by constructor|].
      constructor; [lia|].
      eapply Forall_impl; [exact Hy|]. simpl. intros z Hz. lia.
Qed.

Lemma sorted_desc_sorted (l : list A) : StronglySorted desc (sorted_desc key l).
Proof.
  induction l as [|x l IH]; simpl; [constructor|].
  by apply insert_desc_sorted.
Qed.

Lemma insert_desc_filter (k : Z) (x : A) (l : list A) :
  filter (keyed k) (insert_desc key x l) = filter (keyed k) (x :: l).
Proof.
  induction l as [|y l IH]; cbn [insert_desc]; [done|].
  destruct (Z.ltb_spec (key x) (key y)) as [Hlt|Hge]; [|done].
  rewrite (filter_cons _ y), IH, !filter_cons.
  destruct (decide (key y = k)), (decide (key x = k)); try done; lia.
Qed.

(** Stability: the articles of any one score keep their input order. *)
Lemma sorted_desc_stable (k : Z) (l : list A) :
  filter (keyed k) (sorted_desc key l) = filter (keyed k) l.
Proof.
  induction l as [|x l IH]; simpl; [done|].
  rewrite insert_desc_filter, !filter_cons, IH. done.
Qed.

(** Two lists in descending order that agree on the order within every key
    are the same list: a stable sort has only one possible result. *)
Lemma stable_sort_unique (l1 l2 : list A) :
  StronglySorted desc l1 -> StronglySorted desc l2 ->
  (forall k, filter (keyed k) l1 = filter (keyed k) l2) ->
  l1 = l2.
Proof.
  intros H1. revert l2.
  induction H1 as [|x l1 Hl1 IH Hx]; intros l2 H2 Hfil.
  - destruct l2 as [|y l2]; [done|].
    specialize (Hfil (key y)). rewrite filter_cons_True in Hfil by done.
    discriminate.
  - destruct H2 as [|y l2 Hl2 Hy].
    { specialize (Hfil (key x)). rewrite filter_cons_True in Hfil by done.
      discriminate. }
    assert (key x = key y) as Hk.
    { assert (key x <= key y)%Z.
      { pose proof (Hfil (key x)) as Hf.
        rewrite filter_cons_True in Hf by done.
        assert (x ∈ filter (keyed (key x)) (y :: l2)) as Hin
          by (rewrite <- Hf; left).
        apply list_elem_of_filter in Hin as [_ Hin].
        apply elem_of_cons in Hin as [->|Hin]; [lia|].
        rewrite Forall_forall in Hy. specialize (Hy _ Hin). simpl in Hy.
        lia. }
      assert (key y <= key x)%Z.
      { pose proof (Hfil (key y)) as Hf.
        rewrite (filter_cons_True _ y) in Hf by done.
        assert (y ∈ filter (keyed (key y)) (x :: l1)) as Hin
          by (rewrite Hf; left).
        apply list_elem_of_filter in Hin as [_ Hin].
        apply elem_of_cons in Hin as [->|Hin]; [lia|].
        rewrite Forall_forall in Hx. specialize (Hx _ Hin). simpl in Hx.
        lia. }
      lia. }
    assert (x = y) as ->.
    { pose proof (Hfil (key x)) as Hf.
      rewrite !filter_cons_True in Hf by done. congruence. }
    f_equal. apply IH; [exact Hl2|].
    intros k. specialize (Hfil k). rewrite !filter_cons in Hfil.
    case_decide; congruence.
Qed.

(** Hence [sorted_desc] is the stable descending sort. *)
Lemma sorted_desc_characterised (l l' : list A) :
  StronglySorted desc l' ->
  (forall k, filter (keyed k) l' = filter (keyed k) l) ->
  l' = sorted_desc key l.
Proof.
  intros Hs Hf. apply stable_sort_unique; [done | apply sorted_desc_sorted |].
  intros k. by rewrite sorted_desc_stable.
Qed.

Lemma filter_take_prefix (P : A -> Prop) `{!forall x, Decision (P x)}
    (n : nat) (l : list A) :
  filter P (take n l) `prefix_of` filter P l.
Proof.
  rewrite <- (take_drop n l) at 2. rewrite filter_app.
  by apply prefix_app_r.
Qed.

End SortedFacts.

(** ** Node 2: prioritize *)

Section PrioritizeFacts.

Variable fromisoformat : string -> option datetime.
Variable utc_now : nat -> Z.

Lemma score_articles_length (l : list Article) :
  length (score_articles fromisoformat utc_now l) = length l.
Proof. unfold score_articles. by rewrite length_imap. Qed.

Lemma score_articles_lookup (l : list Article) (i : nat) (a' : Article) :
  score_articles fromisoformat utc_now l !! i = Some a' ->
  exists a, l !! i = Some a /\ a' = score_article fromisoformat (utc_now i) a.
Proof.
  unfold score_articles. rewrite list_lookup_imap.
  destruct (l !! i) as [a|]; simpl; [|done].
  intros [= <-]. eauto.
Qed.

Lemma prioritize_articles_unfold (state : GraphState) :
  prioritize_articles fromisoformat utc_now state
  = take 5
      (sorted_desc priority_score
         (score_articles fromisoformat utc_now (default [] (articles state)))).
Proof. reflexivity. Qed.

End PrioritizeFacts.

Section RankerClaims.

Variable fromisoformat : string -> option datetime.
Variable utc_now : nat -> Z.

(** C1: [prioritize_articles] returns min(5, number of input articles)
    articles, in descending order of the priority score it has given
    them; articles of one score stand in their fetch order (for every
    score, the returned articles of that score are the first ones of that
    score in the input); and what is returned is the head of the ranking:
    the articles left out score no higher than any returned one. *)
Theorem prioritize_articles_top5_sorted_stable (state : GraphState) :
  let input := default [] (articles state) in
  let scored := score_articles fromisoformat utc_now input in
  let top := prioritize_articles fromisoformat utc_now state in
  length top = Nat.min 5 (length input)
  /\ StronglySorted (fun a b => (priority_score b <= priority_score a)%Z) top
  /\ (forall k : Z,
        filter (fun a => priority_score a = k) top
        `prefix_of` filter (fun a => priority_score a = k) scored)
  /\ (exists rest,
        top ++ rest ≡ₚ scored
        /\ forall a b, a ∈ top -> b ∈ rest ->
                       (priority_score b <= priority_score a)%Z).
Proof.
  intros input scored top.
  unfold top. rewrite prioritize_articles_unfold. fold input. fold scored.
  pose proof (sorted_desc_sorted priority_score scored) as Hsorted.
  rewrite <- (take_drop 5 (sorted_desc priority_score scored)) in Hsorted.
  apply StronglySorted_app in Hsorted as (Hcross & Htop & _).
  repeat split.
  - rewrite length_take.
    rewrite (Permutation_length (sorted_desc_perm priority_score scored)).
    unfold scored. by rewrite score_articles_length.
  - exact Htop.
  - intros k. rewrite <- (sorted_desc_stable priority_score k scored).
    apply filter_take_prefix.
  - exists (drop 5 (sorted_desc priority_score scored)). split.
    + rewrite take_drop. apply sorted_desc_perm.
    + intros a b Ha Hb. exact (Hcross a b Ha Hb).
Qed.

(** C2: the score an article receives is source trust + recency + image
    bonus; the trust of a source outside the table is 5 and that of a
    listed source is its table value; the bonus is 2 for an image URL that
    is there (a non-empty string) and 0 otherwise ([None], or the empty
    string, which Python takes as false).  Every article that
    [prioritize_articles] returns carries the score so computed. *)
Theorem priority_score_is_trust_recency_image (now : Z) (a : Article) :
  priority_score (score_article fromisoformat now a)
  = (source_score (source a)
     + calculate_recency_score fromisoformat now (published_at a)
     + has_image_bonus (image_url a))%Z
  /\ (source a ∉ TRUSTED_SOURCES_items.*1 -> source_score (source a) = 5%Z)
  /\ (forall v, (source a, v) ∈ TRUSTED_SOURCES_items ->
                source_score (source a) = v)
  /\ (image_url a = None \/ image_url a = Some "" ->
      has_image_bonus (image_url a) = 0%Z)
  /\ (forall u, image_url a = Some u -> u <> "" ->
                has_image_bonus (image_url a) = 2%Z)
  /\ (forall state a',
        a' ∈ prioritize_articles fromisoformat utc_now state ->
        exists i a0,
          default [] (articles state) !! i = Some a0
          /\ a' = score_article fromisoformat (utc_now i) a0).
Proof.
  split; [reflexivity|].
  split; [apply source_score_unlisted|].
  split; [intros v; apply source_score_listed|].
  split; [apply has_image_bonus_cases|].
  split; [apply has_image_bonus_cases|].
  intros state a' Hin. rewrite prioritize_articles_unfold in Hin.
  apply elem_of_take in Hin as (j & Hin & _).
  apply list_elem_of_lookup_2 in Hin.
  rewrite sorted_desc_perm in Hin.
  apply list_elem_of_lookup in Hin as [i Hi].
  apply score_articles_lookup in Hi as (a0 & Ha0 & ->). eauto.
Qed.

(** C3: with [h] the hours elapsed between the published instant and now,
    the recency score is 10 for h <= 6, 8 for 6 < h <= 24, 6 for
    24 < h <= 48, 4 for 48 < h <= 168 and 2 beyond; a timestamp that the
    parser rejects (the empty string of a missing one is such) scores 3,
    as does one without a UTC offset, from which no elapsed time can be
    taken; and between any two timestamps with an elapsed time, the one
    with more elapsed hours never scores higher. *)
Theorem calculate_recency_score_breakpoints (now : Z) (published : string) :
  let parsed := fromisoformat (PyStr.replace_char "Z" "+00:00" published) in
  let score := calculate_recency_score fromisoformat now published in
  (forall pub, parsed = Some (Aware pub) ->
     let h := hours_between now pub in
     ((h <= 6)%Q -> score = 10%Z)
     /\ ((6 < h)%Q /\ (h <= 24)%Q -> score = 8%Z)
     /\ ((24 < h)%Q /\ (h <= 48)%Q -> score = 6%Z)
     /\ ((48 < h)%Q /\ (h <= 168)%Q -> score = 4%Z)
     /\ ((168 < h)%Q -> score = 2%Z))
  /\ (parsed = None -> score = 3%Z)
  /\ (fromisoformat "" = None ->
      calculate_recency_score fromisoformat now "" = 3%Z)
  /\ (forall wall, parsed = Some (Naive wall) -> score = 3%Z)
  /\ (forall now' published' pub pub',
        parsed = Some (Aware pub) ->
        fromisoformat (PyStr.replace_char "Z" "+00:00" published')
        = Some (Aware pub') ->
        (hours_between now pub <= hours_between now' pub')%Q ->
        (calculate_recency_score fromisoformat now' published' <= score)%Z).
Proof.
  intros parsed score. unfold score, calculate_recency_score. fold parsed.
  split; [|split; [|split; [|split]]].
  - intros pub Hpub. rewrite Hpub. apply recency_of_hours_cases.
  - by intros ->.
  - simpl. by intros ->.
  - by intros wall ->.
  - intros now' published' pub pub' -> Hpub' Hle. rewrite Hpub'.
    by apply recency_of_hours_antitone.
Qed.

(** The scores that can occur: between 7 and 22. *)
Remark priority_score_range (now : Z) (a : Article) :
  (7 <= priority_score (score_article fromisoformat now a) <= 22)%Z.
Proof.
  simpl.
  assert (5 <= source_score (source a) <= 10)%Z as Htrust.
  { pose proof (source_score_range (source a)) as Hin.
    repeat (apply elem_of_cons in Hin as [->|Hin]; [lia|]).
    by apply elem_of_nil in Hin. }
  assert (2 <= calculate_recency_score fromisoformat now (published_at a)
          <= 10)%Z as Hrecency.
  { unfold calculate_recency_score, recency_of_hours.
    repeat case_match; lia. }
  assert (0 <= has_image_bonus (image_url a) <= 2)%Z as Hbonus.
  { unfold has_image_bonus. case_match; lia. }
  lia.
Qed.

End RankerClaims.

(** The end-to-end scenario of the specification: a BBC News article
    published one hour ago with an image scores 10 + 10 + 2 = 22, an
    article of an unlisted source published ten days ago without an image
    scores 5 + 2 + 0 = 7, and the ranking puts the BBC article first
    although it was fetched second. *)
Example ranking_scenario :
  map (fun a => (source a, priority_score a))
    (prioritize_articles sample_fromisoformat (fun _ => sample_now)
       {| topic := None;
          articles := Some [sample_blog; sample_bbc];
          top_articles := None; rewritten_tweets := None; auto_post := None;
          num_tweets_to_post := None; tweet_results := None |})
  = [("BBC News", 22%Z); ("Some Blog", 7%Z)].
Proof. vm_compute. reflexivity. Qed.

(** The breakpoints are inclusive, a naive or empty timestamp scores 3. *)
Example recency_samples :
  map (calculate_recency_score sample_fromisoformat sample_now)
    [ "2024-05-01T06:00:00Z"; "2024-05-01T11:00:00Z"; "2024-04-21T12:00:00Z";
      "2024-05-01T11:00:00"; ""; "yesterday" ]
  = [10; 10; 2; 3; 3; 3]%Z.
Proof. vm_compute. reflexivity. Qed.

(** ** Node 3: rewrite *)

Section ReFacts.

Import Re.

Implicit Types s text target rest : list ascii.

Lemma expect_Some (stop : ascii) s s' :
  expect stop s = Some s' <-> s = stop :: s'.
Proof.
  destruct s as [|c s0]; simpl; [split; discriminate|].
  destruct (Ascii.eqb_spec c stop) as [->|Hne]; split; intros H.
  - by injection H as ->.
  - by injection H as ->.
  - discriminate.
  - injection H as -> _. done.
Qed.

Lemma span_until_spec (stop : ascii) s a b :
  span_until stop s = (a, b) ->
  s = (a ++ b)%list /\ (stop ∉ a) /\ (b = [] \/ exists b', b = stop :: b').
Proof.
  revert a b. induction s as [|c s IH]; simpl; intros a b.
  - intros [= <- <-]. split; [done|]. split; [apply not_elem_of_nil | by left].
  - destruct (Ascii.eqb_spec c stop) as [->|Hne].
    + intros [= <- <-]. split; [done|].
      split; [apply not_elem_of_nil | right; eauto].
    + destruct (span_until stop s) as [a0 b0].
      intros [= <- <-]. destruct (IH _ _ eq_refl) as (-> & Hnot & Hb).
      split; [done|]. split; [|done].
      rewrite not_elem_of_cons. split; [congruence | done].
Qed.

Lemma span_until_stop (stop : ascii) text rest :
  stop ∉ text ->
  span_until stop (text ++ stop :: rest) = (text, stop :: rest).
Proof.
  induction text as [|c text IH]; simpl; intros Hnot.
  - by rewrite Ascii.eqb_refl.
  - apply not_elem_of_cons in Hnot as [Hne Hnot].
    destruct (Ascii.eqb_spec c stop) as [->|_]; [done|].
    by rewrite IH.
Qed.

(** What a match is: an opening bracket, a non-empty text free of "]",
    "](", a non-empty target free of ")", and ")". *)
Lemma match_link_Some s text rest :
  match_link s = Some (text, rest) <->
  exists target,
    s = ("["%char :: text ++ "]"%char :: "("%char
           :: target ++ ")"%char :: rest)%list
    /\ text <> [] /\ ("]"%char ∉ text)
    /\ target <> [] /\ (")"%char ∉ target).
Proof.
  unfold match_link. split.
  - destruct (expect "[" s) as [s1|] eqn:E1; simpl; [|done].
    apply expect_Some in E1 as ->.
    destruct (span_until "]" s1) as [t r1] eqn:Et.
    apply span_until_spec in Et as (-> & Ht & _).
    destruct (decide (t = [])) as [|Hne]; [done|].
    destruct (expect "]" r1) as [r2|] eqn:E2; simpl; [|done].
    apply expect_Some in E2 as ->.
    destruct (expect "(" r2) as [s2|] eqn:E3; simpl; [|done].
    apply expect_Some in E3 as ->.
    destruct (span_until ")" s2) as [u r3] eqn:Eu.
    apply span_until_spec in Eu as (-> & Hu & _).
    destruct (decide (u = [])) as [|Hne']; [done|].
    destruct (expect ")" r3) as [r4|] eqn:E4; simpl; [|done].
    apply expect_Some in E4 as ->.
    intros [= <- <-]. exists u. done.
  - intros (target & -> & Ht & Htn & Hu & Hun). simpl.
    rewrite span_until_stop by done.
    destruct (decide (text = [])); [done|]. simpl.
    rewrite span_until_stop by done.
    destruct (decide (target = [])); [done|]. simpl. done.
Qed.

Lemma match_link_shorter s text rest :
  match_link s = Some (text, rest) -> length rest < length s.
Proof.
  intros (target & -> & _)%match_link_Some.
  simpl. rewrite !length_app. simpl. rewrite !length_app. simpl. lia.
Qed.

Lemma match_link_needs_open (c : ascii) s :
  c <> "["%char -> match_link (c :: s) = None.
Proof.
  intros Hne. unfold match_link. simpl.
  by destruct (Ascii.eqb_spec c "[") as [->|_].
Qed.

Lemma match_link_needs_close s :
  "]"%char ∉ s -> match_link s = None.
Proof.
  intros Hnot. destruct (match_link s) as [[text rest]|] eqn:E; [|done].
  apply match_link_Some in E as (target & -> & _).
  exfalso. apply Hnot. set_solver.
Qed.

(** The fuel of [sub_links] is enough: more fuel gives the same result. *)
Lemma sub_links_fuel_enough (n m : nat) s :
  length s <= n -> length s <= m -> sub_links_fuel n s = sub_links_fuel m s.
Proof.
  revert m s. induction n as [|n IH]; intros m s Hn Hm.
  - destruct s; [|simpl in Hn; lia]. by destruct m.
  - destruct s as [|c s]; [by destruct m|].
    destruct m as [|m]; [simpl in Hm; lia|].
    cbn [sub_links_fuel].
    destruct (match_link (c :: s)) as [[text rest]|] eqn:E.
    + apply match_link_shorter in E. simpl in *.
      f_equal. apply IH; lia.
    + simpl in *. f_equal. apply IH; lia.
Qed.

(** The three equations of the scan. *)
Lemma sub_links_nil : sub_links [] = [].
Proof. reflexivity. Qed.

Lemma sub_links_match s text rest :
  match_link s = Some (text, rest) ->
  sub_links s = (text ++ sub_links rest)%list.
Proof.
  intros E. pose proof (match_link_shorter _ _ _ E) as Hlt.
  unfold sub_links. destruct s as [|c s]; [simpl in Hlt; lia|].
  cbn [length sub_links_fuel]. rewrite E. f_equal.
  apply sub_links_fuel_enough; simpl in Hlt; lia.
Qed.

Lemma sub_links_skip (c : ascii) s :
  match_link (c :: s) = None -> sub_links (c :: s) = c :: sub_links s.
Proof.
  intros E. unfold sub_links. cbn [length sub_links_fuel]. by rewrite E.
Qed.

Lemma sub_links_length s : length (sub_links s) <= length s.
Proof.
  remember (length s) as n eqn:Hn. revert s Hn.
  induction (lt_wf n) as [n _ IH]; intros s ->.
  destruct s as [|c s]; [reflexivity|].
  destruct (match_link (c :: s)) as [[text rest]|] eqn:E.
  - rewrite (sub_links_match _ _ _ E), length_app.
    pose proof (IH _ (match_link_shorter _ _ _ E) rest eq_refl) as Hrest.
    apply match_link_Some in E as (target & E & _).
    rewrite E. simpl. rewrite !length_app. simpl. rewrite !length_app.
    simpl. lia.
  - rewrite (sub_links_skip _ _ E). simpl.
    specialize (IH (length s) ltac:(simpl; lia) s eq_refl). lia.
Qed.

(** Text without "]" holds no link and is left as it is. *)
Lemma sub_links_no_close s : "]"%char ∉ s -> sub_links s = s.
Proof.
  induction s as [|c s IH]; intros Hnot; [done|].
  rewrite sub_links_skip by by apply match_link_needs_close.
  apply not_elem_of_cons in Hnot as [_ Hnot]. by rewrite IH.
Qed.

(** Text without "[" in front of a string is copied, and the scan goes on
    behind it. *)
Lemma sub_links_app_no_open pre s :
  "["%char ∉ pre -> sub_links (pre ++ s) = (pre ++ sub_links s)%list.
Proof.
  induction pre as [|c pre IH]; intros Hnot; [done|].
  apply not_elem_of_cons in Hnot as [Hne Hnot]. simpl.
  rewrite sub_links_skip by by apply match_link_needs_open.
  by rewrite IH.
Qed.

End ReFacts.

Section StripFacts.

Import PyStr.

Implicit Types s : list ascii.

Lemma lstrip_spec s :
  exists ws, s = (ws ++ lstrip s)%list
    /\ Forall (fun c => isspace c = true) ws
    /\ forall c r, lstrip s = c :: r -> isspace c = false.
Proof.
  induction s as [|c s (ws & Hs & Hws & Hhead)]; simpl.
  - exists []. split; [done|]. split; [constructor | discriminate].
  - destruct (isspace c) eqn:E.
    + exists (c :: ws). split; [by rewrite Hs at 1|].
      split; [by constructor | done].
    + exists []. split; [done|]. split; [constructor|].
      by intros ? ? [= <- _].
Qed.

Lemma rstrip_spec s :
  exists ws, s = (rstrip s ++ ws)%list
    /\ Forall (fun c => isspace c = true) ws
    /\ forall c r, rstrip s = (r ++ [c])%list -> isspace c = false.
Proof.
  unfold rstrip. destruct (lstrip_spec (rev s)) as (ws & Hs & Hws & Hhead).
  exists (rev ws). split; [|split].
  - rewrite <- rev_app_distr, <- Hs. by rewrite rev_involutive.
  - by apply Forall_rev.
  - intros c r Hr. apply (Hhead c (rev r)).
    rewrite <- (rev_involutive (lstrip (rev s))), Hr, rev_app_distr. done.
Qed.

(** [strip] takes whitespace, and only whitespace, off both ends: what is
    left neither starts nor ends with a whitespace character. *)
Lemma strip_spec s :
  exists l r, s = (l ++ strip s ++ r)%list
    /\ Forall (fun c => isspace c = true) l
    /\ Forall (fun c => isspace c = true) r
    /\ (forall c t, strip s = c :: t -> isspace c = false)
    /\ (forall c t, strip s = (t ++ [c])%list -> isspace c = false).
Proof.
  unfold strip.
  destruct (lstrip_spec s) as (l & Hl & Hlw & Hhead).
  destruct (rstrip_spec (lstrip s)) as (r & Hr & Hrw & Hlast).
  exists l, r. split; [by rewrite <- Hr|]. split; [done|]. split; [done|].
  split; [|done].
  intros c t Ht. rewrite Ht in Hr. exact (Hhead c _ Hr).
Qed.

End StripFacts.

Lemma length_string_of_list_ascii (l : list ascii) :
  String.length (string_of_list_ascii l) = length l.
Proof. induction l as [|c l IH]; simpl; [done | by rewrite IH]. Qed.

Lemma clean_tweet_chars (content : string) :
  list_ascii_of_string (clean_tweet content)
  = take 250 (Re.sub_links (PyStr.strip (list_ascii_of_string content))).
Proof. unfold clean_tweet. by rewrite list_ascii_of_string_of_list_ascii. Qed.

Lemma clean_tweet_length (content : string) :
  String.length (clean_tweet content)
  = Nat.min 250
      (length (Re.sub_links (PyStr.strip (list_ascii_of_string content)))).
Proof.
  unfold clean_tweet. rewrite length_string_of_list_ascii.
  apply (length_take _ 250).
Qed.

(** The stage applies [clean_tweet] to every reply: it returns one post per
    top article, in order, each the cleaned reply of the model to the
    prompt of its article; it returns nothing when a call raises. *)
Lemma rewrite_news_posts (llm_ainvoke : string -> string -> option string)
    (state : GraphState) (posts : list string) :
  rewrite_news llm_ainvoke state = Some posts ->
  Forall2
    (fun a post =>
       exists content,
         llm_ainvoke
           "You are an expert journalist summarizing news for social media."
           (rewrite_prompt a) = Some content
         /\ post = clean_tweet content)
    (default [] (top_articles state)) posts.
Proof.
  unfold rewrite_news. generalize (default [] (top_articles state)).
  intros l. revert posts. induction l as [|a l IH]; simpl; intros posts.
  - intros [= <-]. constructor.
  - destruct (llm_ainvoke _ (rewrite_prompt a)) as [content|] eqn:Hreply;
      simpl; [|discriminate].
    destruct (rewrite_each llm_ainvoke l) as [rest|]; simpl; [|discriminate].
    intros [= <-]. constructor; [by exists content | by apply IH].
Qed.

(** C4, as the code has it: the post is the first 250 characters of the
    model output once trimmed of surrounding whitespace and scanned for
    links.  It has at most 250 characters, and exactly 250 when the trimmed,
    link-free text has 250 or more.  When the trimmed output is
    [pre[text](target)rest], with no "[" in [pre], a non-empty [text]
    without "]" and a non-empty [target] without ")", the link is replaced
    by [text] and the scan goes on in [rest]; the post then contains [text]
    if [pre] and [text] fit in 250 characters, and holds no "](" when
    [pre] and [rest] have no "]". *)
Theorem clean_tweet_trims_strips_truncates (content : string) :
  let stripped := PyStr.strip (list_ascii_of_string content) in
  let post := list_ascii_of_string (clean_tweet content) in
  (exists l r,
      list_ascii_of_string content = (l ++ stripped ++ r)%list
      /\ Forall (fun c => PyStr.isspace c = true) l
      /\ Forall (fun c => PyStr.isspace c = true) r
      /\ (forall c t, stripped = c :: t -> PyStr.isspace c = false)
      /\ (forall c t, stripped = (t ++ [c])%list -> PyStr.isspace c = false))
  /\ post = take 250 (Re.sub_links stripped)
  /\ String.length (clean_tweet content) <= 250
  /\ String.length (clean_tweet content) <= String.length content
  /\ (250 <= length (Re.sub_links stripped) ->
      String.length (clean_tweet content) = 250)
  /\ (forall pre text target rest,
        stripped
        = (pre ++ "["%char :: text ++ "]"%char :: "("%char
               :: target ++ ")"%char :: rest)%list ->
        "["%char ∉ pre -> text <> [] -> "]"%char ∉ text ->
        target <> [] -> ")"%char ∉ target ->
        post = take 250 (pre ++ text ++ Re.sub_links rest)
        /\ (length (pre ++ text) <= 250 -> occurs_in text post)
        /\ ("]"%char ∉ pre -> "]"%char ∉ rest ->
            post = take 250 (pre ++ text ++ rest)
            /\ ~ occurs_in ["]"; "("]%char post)).
Proof.
  intros stripped post.
  assert (post = take 250 (Re.sub_links stripped)) as Hpost
    by apply clean_tweet_chars.
  split; [apply strip_spec|]. split; [exact Hpost|].
  split; [rewrite clean_tweet_length; lia|].
  split.
  { rewrite clean_tweet_length. fold stripped.
    pose proof (sub_links_length stripped) as Hscan.
    destruct (strip_spec (list_ascii_of_string content))
      as (l & r & Hparts & _).
    assert (String.length content = length (list_ascii_of_string content))
      as Hchars
      by (by rewrite <- length_string_of_list_ascii,
                     string_of_list_ascii_of_string).
    apply (f_equal length) in Hparts. rewrite !length_app in Hparts.
    fold stripped in Hparts. lia. }
  split; [intros Hlong; rewrite clean_tweet_length; fold stripped; lia|].
  intros pre text target rest Hform Hpre Htext Htext' Htarget Htarget'.
  assert (Re.sub_links stripped = (pre ++ text ++ Re.sub_links rest)%list)
    as Hscan.
  { rewrite Hform, sub_links_app_no_open by done. f_equal.
    apply sub_links_match, match_link_Some. by exists target. }
  rewrite Hpost, Hscan. split; [done|]. split.
  - intros Hfit. rewrite app_assoc, take_app.
    rewrite (take_ge (pre ++ text)) by done.
    exists pre, (take (250 - length (pre ++ text)) (Re.sub_links rest)).
    by rewrite <- app_assoc.
  - intros Hpre' Hrest'. rewrite sub_links_no_close by done.
    split; [done|].
    intros (before & after & Hocc).
    assert ("]"%char ∈ take 250 (pre ++ text ++ rest)) as Hin
      by (rewrite Hocc; set_solver).
    apply subseteq_take in Hin. rewrite !elem_of_app in Hin.
    by destruct Hin as [?|[?|?]].
Qed.

(** The claim as stated fails: a model output of 258 characters that is one
    link with a long target becomes a post of 4 characters, not 250; an
    output of 252 characters that is long only by its trailing blanks
    becomes a post of 2; and a link nested in the text of another leaves a
    link, with its "](", in the post. *)
Lemma clean_tweet_claim_fails :
  (let content :=
     ("[link](" ++ string_of_list_ascii (repeat "x"%char 250) ++ ")")%string in
   250 < String.length content /\ clean_tweet content = "link")
  /\ (let content :=
        ("ok" ++ string_of_list_ascii (repeat " "%char 250))%string in
      250 < String.length content /\ clean_tweet content = "ok")
  /\ clean_tweet "[[a](b)](c)" = "[a](c)"
  /\ occurs_in ["]"; "("]%char
       (list_ascii_of_string (clean_tweet "[[a](b)](c)")).
Proof.
  split; [vm_compute; split; [lia | reflexivity]|].
  split; [vm_compute; split; [lia | reflexivity]|].
  split; [vm_compute; reflexivity|].
  exists ["["; "a"]%char, ["c"; ")"]%char. vm_compute. reflexivity.
Qed.

(** ** Node 4: post to Twitter *)

Lemma preview_result_invariant (t : string) :
  result_invariant (preview_result t).
Proof. result_invariant_cases. Qed.

Lemma posted_result_invariant (text id : string) :
  result_invariant (posted_result text id).
Proof. result_invariant_cases. Qed.

Lemma failed_result_invariant (text msg : string) :
  result_invariant (failed_result text msg).
Proof. result_invariant_cases. Qed.

Section PublishFacts.

Variable env : collaborators.
Variable client : list event -> string -> option (list Z) -> tweet_outcome.
Variable api_v1 : list event -> gmap nat string -> nat -> upload_outcome.

(** *** The temporary file *)

Lemma upload_from_tmp_world (bytes : string) (w : world) :
  let name : nat := fresh (dom (tmp_files w)) in
  let w' := (upload_from_tmp api_v1 bytes w).2 in
  tmp_files w !! name = None
  /\ tmp_files w' = <[name := bytes]> (tmp_files w)
  /\ open_files w' = ({[name]} ∪ open_files w) ∖ {[name]}
  /\ calls w' = calls w ++ [MediaUpload name].
Proof.
  intros name w'. split.
  - apply not_elem_of_dom, is_fresh.
  - unfold w', upload_from_tmp. cbn [NamedTemporaryFile].
    destruct (media_upload_answer api_v1 bytes w); simpl;
      fold name; by rewrite insert_insert_eq.
Qed.

Lemma upload_from_tmp_media (bytes : string) (w : world) :
  (upload_from_tmp api_v1 bytes w).1
  = match media_upload_answer api_v1 bytes w with
    | UploadDone media_id => Some media_id
    | UploadRaised _ => None
    end.
Proof.
  unfold upload_from_tmp. cbn [NamedTemporaryFile].
  by destruct (media_upload_answer api_v1 bytes w).
Qed.

(** *** The image block *)

(** The image block ends in one of four ways. *)
Lemma try_image_cases (a : Article) (w : world) :
  (PyStr.truthy_opt (image_url a) = false
   /\ try_image env api_v1 a w = (None, w))
  \/ exists target,
       image_url a = Some target /\ target <> ""
       /\ let w1 := record_call (HttpGet target) w in
          match requests_get env (calls w) target with
          | HttpRaised _ => try_image env api_v1 a w = (None, w1)
          | HttpResponse status bytes =>
              (status <> 200%Z /\ try_image env api_v1 a w = (None, w1))
              \/ (status = 200%Z
                  /\ try_image env api_v1 a w = upload_from_tmp api_v1 bytes w1)
          end.
Proof.
  unfold try_image.
  destruct (image_url a) as [target|]; [|by left].
  destruct target as [|c target]; [by left|].
  right. exists (String c target). split; [done|]. split; [done|].
  cbn [PyStr.truthy].
  destruct (requests_get env (calls w) (String c target))
    as [msg|status bytes]; [done|].
  destruct (Z.eqb_spec status 200) as [->|Hne]; [by right | by left].
Qed.

Lemma try_image_fails (a : Article) (w : world) :
  image_attempt_fails env api_v1 a w -> (try_image env api_v1 a w).1 = None.
Proof.
  intros (target & Himg & Hne & Hfail).
  destruct (try_image_cases a w) as [[Hno _]|(target' & Himg' & _ & Hcase)].
  { rewrite Himg in Hno. by destruct target. }
  rewrite Himg in Himg'. injection Himg' as <-. simpl in Hcase.
  destruct (requests_get env (calls w) target) as [msg|status bytes].
  - by rewrite Hcase.
  - destruct Hcase as [[_ ->]|[-> ->]]; [done|].
    destruct Hfail as [Hfail|[msg Hfail]]; [done|].
    by rewrite upload_from_tmp_media, Hfail.
Qed.

Lemma try_image_calls (a : Article) (w : world) :
  calls w `prefix_of` calls (try_image env api_v1 a w).2.
Proof.
  destruct (try_image_cases a w) as [[_ ->]|(target & _ & _ & Hcase)];
    [done|].
  simpl in Hcase.
  destruct (requests_get env (calls w) target) as [msg|status bytes].
  - rewrite Hcase. by apply prefix_app_r.
  - destruct Hcase as [[_ ->]|[_ ->]]; [by apply prefix_app_r|].
    destruct (upload_from_tmp_world bytes (record_call (HttpGet target) w))
      as (_ & _ & _ & ->).
    simpl. by do 2 apply prefix_app_r.
Qed.

(** *** The posting block and the loop *)

Lemma try_post_spec (text : string) (media : option Z) (w : world) :
  try_post client text media w
  = (match client (calls w) text (media_ids_of media) with
     | TweetCreated id => posted_result text id
     | TweetRaised msg => failed_result text msg
     end,
     record_call (CreateTweet text (media_ids_of media)) w).
Proof.
  unfold try_post.
  by destruct (client (calls w) text (media_ids_of media)).
Qed.

Lemma publish_one_spec (tweet : string) (a : Article) (w : world) :
  publish_one env client api_v1 tweet a w
  = try_post client (full_tweet tweet a)
      (try_image env api_v1 a w).1 (try_image env api_v1 a w).2.
Proof.
  unfold publish_one. by destruct (try_image env api_v1 a w).
Qed.

Lemma publish_one_invariant (tweet : string) (a : Article) (w : world) :
  result_invariant (publish_one env client api_v1 tweet a w).1.
Proof.
  rewrite publish_one_spec, try_post_spec. simpl.
  destruct (client _ _ _);
    [apply failed_result_invariant | apply posted_result_invariant].
Qed.

(** Every turn of the loop ends with its request to create the tweet. *)
Lemma publish_one_calls (tweet : string) (a : Article) (w : world) :
  calls (publish_one env client api_v1 tweet a w).2
  = calls (try_image env api_v1 a w).2
    ++ [CreateTweet (full_tweet tweet a)
          (media_ids_of (try_image env api_v1 a w).1)].
Proof. by rewrite publish_one_spec, try_post_spec. Qed.

Lemma publish_pairs_cons (tweet : string) (a : Article)
    (rest : list (string * Article)) (w : world) :
  publish_pairs env client api_v1 ((tweet, a) :: rest) w
  = let turn := publish_one env client api_v1 tweet a w in
    (turn.1 :: (publish_pairs env client api_v1 rest turn.2).1,
     (publish_pairs env client api_v1 rest turn.2).2).
Proof.
  cbn [publish_pairs].
  destruct (publish_one env client api_v1 tweet a w) as [r w1]. simpl.
  by destruct (publish_pairs env client api_v1 rest w1).
Qed.

Lemma publish_pairs_length (pairs : list (string * Article)) (w : world) :
  length (publish_pairs env client api_v1 pairs w).1 = length pairs.
Proof.
  revert w. induction pairs as [|[tweet a] rest IH]; intros w; [done|].
  rewrite publish_pairs_cons. simpl. by rewrite IH.
Qed.

Lemma publish_pairs_invariant (pairs : list (string * Article)) (w : world) :
  Forall result_invariant (publish_pairs env client api_v1 pairs w).1.
Proof.
  revert w. induction pairs as [|[tweet a] rest IH]; intros w;
    [constructor|].
  rewrite publish_pairs_cons. simpl.
  constructor; [apply publish_one_invariant | apply IH].
Qed.

Lemma publish_pairs_calls (pairs : list (string * Article)) (w : world) :
  calls w `prefix_of` calls (publish_pairs env client api_v1 pairs w).2.
Proof.
  revert w. induction pairs as [|[tweet a] rest IH]; intros w; [done|].
  rewrite publish_pairs_cons. simpl.
  etrans; [|apply IH]. rewrite publish_one_calls.
  etrans; [apply try_image_calls | by apply prefix_app_r].
Qed.

(** The result at index [i] is that of the turn for pair [i], run in the
    world the earlier turns have left; its requests stay in the log. *)
Lemma publish_pairs_lookup (pairs : list (string * Article)) (w : world)
    (i : nat) (tweet : string) (a : Article) :
  pairs !! i = Some (tweet, a) ->
  exists wi,
    worlds_before env client api_v1 pairs w !! i = Some wi
    /\ (publish_pairs env client api_v1 pairs w).1 !! i
       = Some (publish_one env client api_v1 tweet a wi).1
    /\ calls (publish_one env client api_v1 tweet a wi).2
       `prefix_of` calls (publish_pairs env client api_v1 pairs w).2.
Proof.
  revert w i. induction pairs as [|[tweet0 a0] rest IH]; intros w i Hi;
    [done|].
  rewrite publish_pairs_cons. destruct i as [|i]; simpl in *.
  - injection Hi as -> ->. exists w. split; [done|]. split; [done|].
    apply publish_pairs_calls.
  - apply IH, Hi.
Qed.

End PublishFacts.

Section AttemptFacts.

Variable env : collaborators.
Variable client : list event -> string -> option (list Z) -> tweet_outcome.
Variable api_v1 : list event -> gmap nat string -> nat -> upload_outcome.

Lemma post_attempts_record (e : event) (w : world) :
  post_attempts (record_call e w)
  = post_attempts w + (if is_create_tweet e then 1 else 0).
Proof.
  unfold post_attempts, record_call. simpl.
  rewrite filter_app, length_app, filter_cons, filter_nil.
  destruct (is_create_tweet e); by case_decide.
Qed.

(** The image block asks for no tweet. *)
Lemma try_image_attempts (a : Article) (w : world) :
  post_attempts (try_image env api_v1 a w).2 = post_attempts w.
Proof.
  destruct (try_image_cases env api_v1 a w)
    as [[_ ->]|(target & _ & _ & Hcase)]; [done|].
  simpl in Hcase.
  assert (post_attempts (record_call (HttpGet target) w) = post_attempts w)
    as Hget by (rewrite post_attempts_record; simpl; lia).
  destruct (requests_get env (calls w) target) as [msg|status bytes].
  - by rewrite Hcase.
  - destruct Hcase as [[_ ->]|[_ ->]]; [done|].
    rewrite <- Hget. unfold post_attempts at 1.
    destruct (upload_from_tmp_world api_v1 bytes
                (record_call (HttpGet target) w)) as (_ & _ & _ & ->).
    rewrite filter_app, length_app, filter_cons, filter_nil.
    case_decide; [done|]. unfold post_attempts. simpl. lia.
Qed.

(** One turn of the loop asks for exactly one tweet. *)
Lemma publish_one_attempts (tweet : string) (a : Article) (w : world) :
  post_attempts (publish_one env client api_v1 tweet a w).2
  = S (post_attempts w).
Proof.
  rewrite publish_one_spec, try_post_spec. simpl.
  rewrite post_attempts_record, try_image_attempts. simpl. lia.
Qed.

(** The loop asks for one tweet per pair, whatever the answers. *)
Lemma publish_pairs_attempts (pairs : list (string * Article)) (w : world) :
  post_attempts (publish_pairs env client api_v1 pairs w).2
  = post_attempts w + length pairs.
Proof.
  revert w. induction pairs as [|[tweet a] rest IH]; intros w.
  - simpl. lia.
  - rewrite publish_pairs_cons. simpl.
    rewrite IH, publish_one_attempts. lia.
Qed.

End AttemptFacts.

Section StageFacts.

Variable env : collaborators.

Lemma post_to_twitter_preview (state : GraphState) (w : world) :
  read_auto_post state = false ->
  post_to_twitter env state w
  = (inr (map preview_result
            (PyStr.slice_to (read_num_to_post state)
               (default [] (rewritten_tweets state)))), w).
Proof. intros Hoff. unfold post_to_twitter. by rewrite Hoff. Qed.

Lemma post_to_twitter_live (state : GraphState) (w : world) client api_v1 :
  read_auto_post state = true ->
  twitter_client env = Some client -> twitter_api_v1 env = Some api_v1 ->
  let n := read_num_to_post state in
  let pairs := zip (PyStr.slice_to n (default [] (rewritten_tweets state)))
                   (PyStr.slice_to n (default [] (top_articles state))) in
  post_to_twitter env state w
  = (inr (publish_pairs env client api_v1 pairs w).1,
     (publish_pairs env client api_v1 pairs w).2).
Proof.
  intros Hon Hc Ha n pairs. unfold post_to_twitter.
  rewrite Hon, Hc, Ha. simpl. fold n. fold pairs.
  by destruct (publish_pairs env client api_v1 pairs w).
Qed.

Lemma post_to_twitter_uninitialised (state : GraphState) (w : world) :
  read_auto_post state = true ->
  twitter_client env = None \/ twitter_api_v1 env = None ->
  post_to_twitter env state w
  = (inl "Twitter clients not initialized properly", w).
Proof.
  intros Hon Hnone. unfold post_to_twitter. rewrite Hon. simpl.
  destruct Hnone as [-> | ->]; [done|].
  by destruct (twitter_client env).
Qed.

(** The results of a run: previews in preview mode, the results of the
    loop in live mode, none when the stage raises. *)
Lemma stage_results_cases (state : GraphState) (w : world) :
  let n := read_num_to_post state in
  let tweets := default [] (rewritten_tweets state) in
  let arts := default [] (top_articles state) in
  stage_results (post_to_twitter env state w)
  = if read_auto_post state then
      match twitter_client env, twitter_api_v1 env with
      | Some client, Some api_v1 =>
          (publish_pairs env client api_v1
             (zip (PyStr.slice_to n tweets) (PyStr.slice_to n arts)) w).1
      | _, _ => []
      end
    else map preview_result (PyStr.slice_to n tweets).
Proof.
  intros n tweets arts.
  destruct (read_auto_post state) eqn:Hmode.
  - destruct (twitter_client env) as [client|] eqn:Hc.
    + destruct (twitter_api_v1 env) as [api_v1|] eqn:Ha.
      * by rewrite (post_to_twitter_live _ _ client api_v1).
      * rewrite post_to_twitter_uninitialised; [done | done | by right].
    + rewrite post_to_twitter_uninitialised; [done | done | by left].
  - by rewrite post_to_twitter_preview.
Qed.

Lemma stage_results_length (state : GraphState) (w : world) :
  length (stage_results (post_to_twitter env state w))
  <= length (PyStr.slice_to (read_num_to_post state)
               (default [] (rewritten_tweets state))).
Proof.
  rewrite stage_results_cases.
  destruct (read_auto_post state); [|by rewrite length_map].
  destruct (twitter_client env) as [client|]; [|simpl; lia].
  destruct (twitter_api_v1 env) as [api_v1|]; [|simpl; lia].
  rewrite publish_pairs_length, length_zip. lia.
Qed.

End StageFacts.

(** *** The claims about the publish stage *)

(** C5: every result the stage returns satisfies the invariant (a success
    has an id, a URL and no error; a failure has neither id nor URL), and,
    for a limit that is not negative, the stage returns at most
    min(limit, number of posts) results. *)
Theorem publish_results_invariant_and_bound
    (env : collaborators) (state : GraphState) (w : world) :
  (0 <= read_num_to_post state)%Z ->
  let rs := stage_results (post_to_twitter env state w) in
  Forall result_invariant rs
  /\ length rs <= Nat.min (Z.to_nat (read_num_to_post state))
                          (length (default [] (rewritten_tweets state)))
  /\ (Z.of_nat (length rs) <= read_num_to_post state)%Z.
Proof.
  intros Hn rs.
  assert (length rs <= Nat.min (Z.to_nat (read_num_to_post state))
                               (length (default [] (rewritten_tweets state))))
    as Hlen.
  { unfold rs. etrans; [apply stage_results_length|].
    by rewrite slice_to_length_nonneg. }
  split; [|split; [exact Hlen | lia]].
  unfold rs. rewrite stage_results_cases.
  destruct (read_auto_post state).
  - destruct (twitter_client env) as [client|]; [|constructor].
    destruct (twitter_api_v1 env) as [api_v1|]; [|constructor].
    apply publish_pairs_invariant.
  - apply Forall_fmap, Forall_true. intros t. apply preview_result_invariant.
Qed.

Lemma publish_results_invariant_and_bound_witness :
  let rs := stage_results
              (post_to_twitter flaky_env
                 (sample_state (Some (AutoPostBool true)) (Some 2%Z))
                 empty_world) in
  Forall result_invariant rs
  /\ length rs <= Nat.min 2 3
  /\ (Z.of_nat (length rs) <= 2)%Z.
Proof.
  apply (publish_results_invariant_and_bound flaky_env
           (sample_state (Some (AutoPostBool true)) (Some 2%Z)) empty_world).
  vm_compute. discriminate.
Defined.

(** Outside the domain of the limit: a negative limit makes [tweets[:n]]
    drop the last posts instead of keeping none. *)
Example negative_limit_counts_from_the_end :
  length (stage_results
            (post_to_twitter offline_env
               (sample_state None (Some (-1)%Z)) empty_world)) = 2.
Proof. vm_compute. reflexivity. Qed.

(** C6: with auto-post off the stage calls nothing: for any collaborators,
    also when neither client was built, it returns, and leaves the world
    (the log of requests, the disk) as it found it.  With a limit [n] that
    is not negative, it returns one result for each of the first [n] posts:
    a failure whose error is "Auto-post disabled" and whose text is the post
    as it was rewritten. *)
Theorem preview_mode_contacts_nothing
    (env : collaborators) (state : GraphState) (w : world) :
  read_auto_post state = false ->
  (0 <= read_num_to_post state)%Z ->
  let shown := take (Z.to_nat (read_num_to_post state))
                    (default [] (rewritten_tweets state)) in
  post_to_twitter env state w
  = (inr (map (fun t => {| tweet_text := t; tweet_id := None;
                           tweet_url := None; success := false;
                           error := Some "Auto-post disabled" |}) shown), w)
  /\ length (stage_results (post_to_twitter env state w))
     = Nat.min (Z.to_nat (read_num_to_post state))
               (length (default [] (rewritten_tweets state))).
Proof.
  intros Hoff Hn shown.
  rewrite post_to_twitter_preview by done.
  rewrite slice_to_nonneg by done. split; [reflexivity|].
  unfold stage_results. simpl. by rewrite length_map, length_take.
Qed.

(** The example of the specification: a limit of 2 and 3 posts give 2
    results, both "Auto-post disabled", with no client at all. *)
Lemma preview_mode_contacts_nothing_witness :
  post_to_twitter offline_env
    (sample_state (Some (AutoPostBool false)) (Some 2%Z)) empty_world
  = (inr [ {| tweet_text := "first"; tweet_id := None; tweet_url := None;
              success := false; error := Some "Auto-post disabled" |};
           {| tweet_text := "second"; tweet_id := None; tweet_url := None;
              success := false; error := Some "Auto-post disabled" |} ],
     empty_world)
  /\ length (stage_results
               (post_to_twitter offline_env
                  (sample_state (Some (AutoPostBool false)) (Some 2%Z))
                  empty_world)) = 2.
Proof.
  apply (preview_mode_contacts_nothing offline_env
           (sample_state (Some (AutoPostBool false)) (Some 2%Z)) empty_world).
  - reflexivity.
  - vm_compute. discriminate.
Defined.

(** C7: in live mode (auto-post on, both clients built) the stage returns
    one result per pair and asks for one tweet per pair.  For the pair at
    index [i], attempted in the world [wi] the earlier pairs have left: if
    the image fetch raises or does not answer 200, or the upload raises,
    the tweet is requested without media ids; if the request to create the
    tweet raises with message [msg], result [i] is the failure carrying
    [msg]; in either case every pair, before and after, has its result and
    its request. *)
Theorem live_mode_isolates_failures
    (env : collaborators) (state : GraphState) (w : world) client api_v1 :
  read_auto_post state = true ->
  twitter_client env = Some client -> twitter_api_v1 env = Some api_v1 ->
  let n := read_num_to_post state in
  let pairs := zip (PyStr.slice_to n (default [] (rewritten_tweets state)))
                   (PyStr.slice_to n (default [] (top_articles state))) in
  exists rs w',
    post_to_twitter env state w = (inr rs, w')
    /\ length rs = length pairs
    /\ post_attempts w' = post_attempts w + length pairs
    /\ forall i tweet a,
         pairs !! i = Some (tweet, a) ->
         exists wi,
           worlds_before env client api_v1 pairs w !! i = Some wi
           /\ rs !! i = Some (publish_one env client api_v1 tweet a wi).1
           /\ (let media := (try_image env api_v1 a wi).1 in
               let asked := calls (try_image env api_v1 a wi).2 in
               let request :=
                 CreateTweet (full_tweet tweet a) (media_ids_of media) in
               (asked ++ [request]) `prefix_of` calls w'
               /\ (image_attempt_fails env api_v1 a wi ->
                   request = CreateTweet (full_tweet tweet a) None)
               /\ (forall msg,
                     client asked (full_tweet tweet a) (media_ids_of media)
                     = TweetRaised msg ->
                     rs !! i = Some {| tweet_text := full_tweet tweet a;
                                       tweet_id := None; tweet_url := None;
                                       success := false; error := Some msg |})).
Proof.
  intros Hon Hc Ha n pairs.
  exists (publish_pairs env client api_v1 pairs w).1,
         (publish_pairs env client api_v1 pairs w).2.
  split; [exact (post_to_twitter_live env state w client api_v1 Hon Hc Ha)|].
  split; [apply publish_pairs_length|].
  split; [apply publish_pairs_attempts|].
  intros i tweet a Hi.
  destruct (publish_pairs_lookup env client api_v1 pairs w i tweet a Hi)
    as (wi & Hwi & Hri & Hlog).
  exists wi. split; [done|]. split; [done|]. simpl.
  split; [by rewrite <- (publish_one_calls env client api_v1)|].
  split.
  - intros Hfail. by rewrite (try_image_fails _ _ _ _ Hfail).
  - intros msg Hmsg. rewrite Hri. f_equal.
    by rewrite publish_one_spec, try_post_spec, Hmsg.
Qed.

Lemma live_mode_isolates_failures_witness :
  exists rs w',
    post_to_twitter flaky_env
      (sample_state (Some (AutoPostStr "TRUE")) (Some 5%Z)) empty_world
    = (inr rs, w')
    /\ length rs = 3
    /\ post_attempts w' = 3
    /\ rs !! 0 = Some (failed_result (full_tweet "first" sample_bbc)
                                     "403 Forbidden").
Proof.
  destruct (live_mode_isolates_failures flaky_env
              (sample_state (Some (AutoPostStr "TRUE")) (Some 5%Z))
              empty_world flaky_client flaky_api eq_refl eq_refl eq_refl)
    as (rs & w' & Hrun & Hlen & Hattempts & Hpairs).
  destruct (Hpairs 0 "first" sample_bbc eq_refl)
    as (wi & Hwi & _ & _ & _ & Hrefused).
  injection Hwi as <-.
  exists rs, w'. split; [exact Hrun|]. split; [exact Hlen|].
  split; [exact Hattempts|].
  apply (Hrefused "403 Forbidden"). vm_compute. reflexivity.
Defined.

(** The same run, written out: the first image is fetched but its upload
    raises, the second is not found, the third article has none; all three
    tweets are requested without media; the first request is refused and
    the other two still go out. *)
Example live_mode_run :
  let run := post_to_twitter flaky_env
               (sample_state (Some (AutoPostStr "TRUE")) (Some 5%Z))
               empty_world in
  map (fun r => (success r, error r)) (stage_results run)
  = [ (false, Some "403 Forbidden"); (true, None); (true, None) ]
  /\ map (fun e => match e with
                   | CreateTweet _ ids => Some ids
                   | _ => None
                   end) (calls run.2)
     = [ None; None; Some None; None; Some None; Some None ].
Proof. vm_compute. split; reflexivity. Qed.

(** C8, as the code has it: the temporary file of an image-attach attempt
    gets a name that is new on the disk; when the [with] block is left,
    whether the upload returned or raised, its handle is closed and no
    other handle is touched; but the file is made with [delete=False] and
    nothing removes it: it stays on the disk, holding the fetched bytes.
    An image block either leaves the disk as it was or leaves that one file
    more. *)
Theorem temp_file_closed_but_kept
    (api_v1 : list event -> gmap nat string -> nat -> upload_outcome)
    (bytes : string) (w : world) :
  let name : nat := fresh (dom (tmp_files w)) in
  let w' := (upload_from_tmp api_v1 bytes w).2 in
  tmp_files w !! name = None
  /\ (name ∉ open_files w')
  /\ (forall other : nat,
        other <> name -> (other ∈ open_files w' <-> other ∈ open_files w))
  /\ tmp_files w' = <[name := bytes]> (tmp_files w)
  /\ tmp_files w' !! name = Some bytes
  /\ (forall env a,
        tmp_files (try_image env api_v1 a w).2 = tmp_files w
        \/ exists fetched,
             tmp_files (try_image env api_v1 a w).2
             = <[name := fetched]> (tmp_files w)).
Proof.
  intros name w'.
  destruct (upload_from_tmp_world api_v1 bytes w) as (Hnew & Hdisk & Hopen & _).
  fold name in Hnew, Hdisk, Hopen. fold w' in Hdisk, Hopen.
  split; [exact Hnew|].
  split.
  { rewrite Hopen, elem_of_difference, elem_of_singleton. tauto. }
  split.
  { intros other Hother.
    rewrite Hopen, elem_of_difference, elem_of_union, !elem_of_singleton.
    tauto. }
  split; [exact Hdisk|].
  split; [rewrite Hdisk; apply lookup_insert_eq|].
  intros env a.
  destruct (try_image_cases env api_v1 a w)
    as [[_ ->]|(target & _ & _ & Hcase)]; [by left|].
  simpl in Hcase.
  destruct (requests_get env (calls w) target) as [msg|status fetched].
  - left. by rewrite Hcase.
  - destruct Hcase as [[_ ->]|[_ ->]]; [by left|].
    right. exists fetched.
    by destruct (upload_from_tmp_world api_v1 fetched
                   (record_call (HttpGet target) w)) as (_ & -> & _).
Qed.

(** The claim as stated fails: after an image-attach attempt, with the
    upload done or raised, and after a whole run of the stage, the
    temporary file is still on the disk. *)
Lemma temp_file_is_not_deleted :
  tmp_files empty_world !! 0 = None
  /\ tmp_files (try_image healthy_env healthy_api sample_bbc empty_world).2 !! 0
     = Some "JPEG"
  /\ tmp_files (try_image flaky_env flaky_api sample_bbc empty_world).2 !! 0
     = Some "JPEG"
  /\ tmp_files (post_to_twitter healthy_env
                  (sample_state (Some (AutoPostBool true)) (Some 1%Z))
                  empty_world).2 !! 0
     = Some "JPEG".
Proof. vm_compute. repeat split. Qed.

(** *** Reading the flag and the limit *)

Lemma lower_char_t (c : ascii) :
  PyStr.lower_char c = "t"%char <-> (c = "t" \/ c = "T")%char.
Proof. lower_char_cases c. Qed.

Lemma lower_char_r (c : ascii) :
  PyStr.lower_char c = "r"%char <-> (c = "r" \/ c = "R")%char.
Proof. lower_char_cases c. Qed.

Lemma lower_char_u (c : ascii) :
  PyStr.lower_char c = "u"%char <-> (c = "u" \/ c = "U")%char.
Proof. lower_char_cases c. Qed.

Lemma lower_char_e (c : ascii) :
  PyStr.lower_char c = "e"%char <-> (c = "e" \/ c = "E")%char.
Proof. lower_char_cases c. Qed.

Lemma lower_is_true (s : string) :
  PyStr.lower s = "true" <-> equals_true_ignoring_case s.
Proof.
  split.
  - destruct s as [|c1 [|c2 [|c3 [|c4 [|c5 s]]]]]; simpl; try discriminate.
    intros [= H1 H2 H3 H4].
    exists c1, c2, c3, c4. split; [done|].
    by rewrite <- lower_char_t, <- lower_char_r, <- lower_char_u,
               <- lower_char_e.
  - intros (c1 & c2 & c3 & c4 & -> & H1 & H2 & H3 & H4). simpl.
    apply lower_char_t in H1. apply lower_char_r in H2.
    apply lower_char_u in H3. apply lower_char_e in H4.
    by rewrite H1, H2, H3, H4.
Qed.

(** C9: for a string value [s] of the flag, the stage goes live exactly when
    [s] is "true" up to the case of its letters.  For every other string it
    takes the preview path, and nothing tells the caller so: it returns the
    previews and leaves the world alone.  For such an [s] it takes the live
    path: it raises when a client is missing and runs the loop otherwise. *)
Theorem auto_post_string_live_iff_true
    (env : collaborators) (state : GraphState) (w : world) (s : string) :
  auto_post state = Some (AutoPostStr s) ->
  let n := read_num_to_post state in
  let tweets := default [] (rewritten_tweets state) in
  let arts := default [] (top_articles state) in
  (read_auto_post state = true <-> equals_true_ignoring_case s)
  /\ (~ equals_true_ignoring_case s ->
      post_to_twitter env state w
      = (inr (map preview_result (PyStr.slice_to n tweets)), w))
  /\ (equals_true_ignoring_case s ->
      post_to_twitter env state w
      = match twitter_client env, twitter_api_v1 env with
        | Some client, Some api_v1 =>
            let pairs :=
              zip (PyStr.slice_to n tweets) (PyStr.slice_to n arts) in
            (inr (publish_pairs env client api_v1 pairs w).1,
             (publish_pairs env client api_v1 pairs w).2)
        | _, _ => (inl "Twitter clients not initialized properly", w)
        end).
Proof.
  intros Hflag n tweets arts.
  assert (read_auto_post state = true <-> equals_true_ignoring_case s) as Hiff.
  { unfold read_auto_post. rewrite Hflag, String.eqb_eq. apply lower_is_true. }
  split; [exact Hiff|]. split.
  - intros Hnot. apply post_to_twitter_preview.
    destruct (read_auto_post state); [|done].
    exfalso. by apply Hnot, Hiff.
  - intros Hyes. apply Hiff in Hyes.
    destruct (twitter_client env) as [client|] eqn:Hc.
    + destruct (twitter_api_v1 env) as [api_v1|] eqn:Ha.
      * by apply post_to_twitter_live.
      * apply post_to_twitter_uninitialised; [done | by right].
    + destruct (twitter_api_v1 env);
        apply post_to_twitter_uninitialised; first [done | by left].
Qed.

(** "yes" is not "true": the run is a preview, with no client at all. *)
Lemma auto_post_string_live_iff_true_witness :
  post_to_twitter offline_env
    (sample_state (Some (AutoPostStr "yes")) (Some 2%Z)) empty_world
  = (inr (map preview_result ["first"; "second"]), empty_world).
Proof.
  apply (auto_post_string_live_iff_true offline_env
           (sample_state (Some (AutoPostStr "yes")) (Some 2%Z))
           empty_world "yes" eq_refl).
  intros (c1 & c2 & c3 & c4 & Hs & _). discriminate Hs.
Defined.

(** Which strings switch the stage to live posting. *)
Example auto_post_strings :
  map (fun s => read_auto_post (sample_state (Some (AutoPostStr s)) None))
    [ "true"; "True"; "TRUE"; "tRuE"; "false"; "yes"; "1"; "on"; " true";
      "true "; "" ]
  = [ true; true; true; true; false; false; false; false; false; false;
      false ].
Proof. vm_compute. reflexivity. Qed.

(** C10: a state without [num_tweets_to_post] makes the stage work with a
    limit of 1: it returns at most one result and asks for at most one
    tweet.  The default of 2 is that of [main], which puts 2 in the state
    when the environment has no [NUM_TWEETS_TO_POST]; the state [main]
    builds always has the key. *)
Theorem missing_limit_defaults_to_one
    (env : collaborators) (state : GraphState) (w : world) :
  num_tweets_to_post state = None ->
  read_num_to_post state = 1%Z
  /\ length (stage_results (post_to_twitter env state w)) <= 1
  /\ post_attempts (post_to_twitter env state w).2 <= post_attempts w + 1
  /\ (forall (int_of_str : string -> option Z) (environ : gmap string string),
        environ !! "NUM_TWEETS_TO_POST" = None ->
        int_of_str "2" = Some 2%Z ->
        num_tweets_to_post <$> main_input_state int_of_str environ
        = Some (Some 2%Z))
  /\ (forall (int_of_str : string -> option Z) (environ : gmap string string)
             (st : GraphState),
        main_input_state int_of_str environ = Some st ->
        num_tweets_to_post st
        = int_of_str (default "2" (environ !! "NUM_TWEETS_TO_POST"))).
Proof.
  intros Hmissing.
  assert (read_num_to_post state = 1%Z) as Hone
    by (unfold read_num_to_post; by rewrite Hmissing).
  split; [exact Hone|]. split; [|split; [|split]].
  - etrans; [apply stage_results_length|].
    rewrite Hone, slice_to_length_nonneg by lia.
    change (Z.to_nat 1) with 1. lia.
  - destruct (read_auto_post state) eqn:Hmode.
    + destruct (twitter_client env) as [client|] eqn:Hc.
      * destruct (twitter_api_v1 env) as [api_v1|] eqn:Ha.
        -- rewrite (post_to_twitter_live env state w client api_v1) by done.
           simpl. rewrite publish_pairs_attempts, length_zip, Hone.
           rewrite slice_to_length_nonneg by lia.
           change (Z.to_nat 1) with 1. lia.
        -- rewrite post_to_twitter_uninitialised;
             [simpl; lia | done | by right].
      * rewrite post_to_twitter_uninitialised; [simpl; lia | done | by left].
    + rewrite post_to_twitter_preview by done. simpl. lia.
  - intros int_of_str environ Henv Hint. unfold main_input_state.
    rewrite Henv. simpl. by rewrite Hint.
  - intros int_of_str environ st. unfold main_input_state.
    destruct (int_of_str (default "2" (environ !! "NUM_TWEETS_TO_POST")))
      as [k|]; simpl; [|discriminate].
    by intros [= <-].
Qed.

(** Three posts are ready and the state has no limit: one tweet goes out. *)
Lemma missing_limit_defaults_to_one_witness :
  let run := post_to_twitter healthy_env
               (sample_state (Some (AutoPostBool true)) None) empty_world in
  length (stage_results run) <= 1 /\ post_attempts run.2 <= 0 + 1.
Proof.
  destruct (missing_limit_defaults_to_one healthy_env
              (sample_state (Some (AutoPostBool true)) None) empty_world
              eq_refl) as (_ & Hresults & Hattempts & _).
  split; [exact Hresults | exact Hattempts].
Defined.

(** With an empty environment [main] asks for 2 posts; the stage on its
    own, given no limit, makes 1. *)
Example main_default_is_two :
  num_tweets_to_post <$> main_input_state sample_int ∅ = Some (Some 2%Z)
  /\ length (stage_results
               (post_to_twitter healthy_env
                  (sample_state (Some (AutoPostBool true)) None)
                  empty_world)) = 1.
Proof. vm_compute. split; reflexivity. Qed.

(** * Further properties of the code *)

(** ** Node 1: fetch news *)

Lemma has_title_KeyValue (r : raw_article) :
  has_title r = true <-> exists t, raw_title r = KeyValue t /\ t <> "".
Proof.
  unfold has_title. destruct (raw_title r) as [| |t]; simpl.
  - split; [discriminate | by intros (t & ? & _)].
  - split; [discriminate | by intros (t & ? & _)].
  - destruct t as [|c t]; simpl.
    + split; [discriminate | by intros (t' & [= <-] & ?)].
    + split; [by exists (String c t) | done].
Qed.

(** What [Article(...)] makes of a record with a title: an article exactly
    when the record is usable, and then with the record's values, the
    defaults for the missing keys, and the score fields at their defaults. *)
Lemma article_of_raw_inr (r : raw_article) (a : Article) :
  has_title r = true ->
  article_of_raw r = inr a <->
  usable_record r
  /\ raw_title r = KeyValue (title a)
  /\ dict_get_or (raw_description r) "" = Some (description a)
  /\ match raw_source r with
     | KeyValue obj => dict_get_or obj "Unknown" = Some (source a)
     | _ => source a = "Unknown"
     end
  /\ author a = dict_get (raw_author r)
  /\ dict_get_or (raw_url r) "" = Some (url a)
  /\ dict_get_or (raw_publishedAt r) "" = Some (published_at a)
  /\ image_url a = dict_get (raw_urlToImage r)
  /\ priority_score a = 0%Z /\ priority_reason a = "".
Proof.
  intros (t & Ht & _)%has_title_KeyValue.
  unfold article_of_raw, source_name, usable_record, Article_init.
  rewrite Ht. destruct a as [t' d' s' au' u' p' i' sc' re']. simpl.
  destruct (raw_source r) as [| |[| |name]];
    destruct (raw_description r) as [| |d];
    destruct (raw_url r) as [| |u];
    destruct (raw_publishedAt r) as [| |pub];
    simpl; split.
  all: try (intros [=]; subst; by repeat split).
  all: try by intros ((? & ? & ? & ? & ?) & _).
  all: intros (_ & ? & ? & ? & ? & ? & ? & ? & ? & ?); by simplify_eq.
Qed.

Lemma article_of_raw_usable (r : raw_article) :
  has_title r = true ->
  (exists a, article_of_raw r = inr a) <-> usable_record r.
Proof.
  intros Htitle. split.
  - intros [a Ha]. by apply (article_of_raw_inr r a Htitle) in Ha as [? _].
  - intros (Hs & Hn & Hd & Hu & Hp).
    pose proof Htitle as (t & Ht & _)%has_title_KeyValue.
    unfold article_of_raw, source_name, Article_init. rewrite Ht.
    destruct (raw_source r) as [| |[| |name]];
      destruct (raw_description r) as [| |d];
      destruct (raw_url r) as [| |u];
      destruct (raw_publishedAt r) as [| |pub];
      simpl; try done; by eexists.
Qed.

(** The loop looks at the titled records only, in order. *)
Lemma collect_articles_inr (records : list raw_article) (arts : list Article) :
  collect_articles records = inr arts <->
  Forall2 (fun r a => article_of_raw r = inr a)
    (filter (fun r => has_title r = true) records) arts.
Proof.
  revert arts. induction records as [|r records IH]; intros arts; simpl.
  - split; [intros [= <-]; constructor | by intros ->%Forall2_nil_inv_l].
  - rewrite filter_cons. destruct (has_title r) eqn:Htitle.
    + rewrite decide_True by done.
      destruct (article_of_raw r) as [e|a] eqn:Ha.
      * split; [discriminate|].
        intros (a & arts' & Ha' & _ & _)%Forall2_cons_inv_l. congruence.
      * destruct (collect_articles records) as [e|l] eqn:Hrest.
        -- split; [discriminate|].
           intros (a' & arts' & _ & Hrest' & _)%Forall2_cons_inv_l.
           by apply IH in Hrest'.
        -- split.
           ++ intros [= <-]. constructor; [done | by apply IH].
           ++ intros (a' & arts' & Ha' & Hrest' & ->)%Forall2_cons_inv_l.
              apply IH in Hrest'. congruence.
    + rewrite decide_False by done. apply IH.
Qed.

Lemma collect_articles_succeeds (records : list raw_article) :
  (exists arts, collect_articles records = inr arts) <->
  Forall (fun r => has_title r = true -> usable_record r) records.
Proof.
  induction records as [|r records IH]; simpl.
  - split; [constructor | by eexists].
  - rewrite Forall_cons. destruct (has_title r) eqn:Htitle.
    + destruct (article_of_raw r) as [e|a] eqn:Ha.
      * split; [by intros [? ?]|]. intros [Hr _].
        destruct (proj2 (article_of_raw_usable r Htitle) (Hr eq_refl))
          as [a Ha']. congruence.
      * assert (usable_record r) as Hr
          by (apply article_of_raw_usable; [done | by eexists]).
        destruct (collect_articles records) as [e|l] eqn:Hrest.
        -- split; [by intros [? ?]|]. intros [_ Hall].
           apply IH in Hall as [? ?]. discriminate.
        -- split; [|by eexists]. intros _. split; [done|].
           apply IH. by eexists.
    + rewrite IH. split; [by split | by intros [_ ?]].
Qed.

Lemma articles_of_titled (rs : list raw_article) (arts : list Article) :
  Forall (fun r => has_title r = true) rs ->
  Forall2 (fun r a => article_of_raw r = inr a) rs arts ->
  Forall (fun a => title a <> "" /\ priority_score a = 0%Z
                   /\ priority_reason a = "") arts.
Proof.
  intros Htitled Hmade. revert Htitled.
  induction Hmade as [|r a rs l Ha _ IH]; intros Htitled; [constructor|].
  apply Forall_cons in Htitled as [Hr Hrs]. constructor; [|by apply IH].
  apply (article_of_raw_inr r a Hr) in Ha
    as (_ & Ht & _ & _ & _ & _ & _ & _ & Hscore & Hreason).
  apply has_title_KeyValue in Hr as (t & Ht' & Hne).
  split; [congruence | done].
Qed.

Lemma filter_has_title (records : list raw_article) :
  Forall (fun r => has_title r = true)
    (filter (fun r => has_title r = true) records).
Proof. apply Forall_forall. by intros r [? _]%list_elem_of_filter. Qed.

(** X1: when [fetch_news] returns, the environment had a non-empty API
    key, one request was made, for the state's topic ("india" without one),
    and the articles returned are, in order, the articles made of the
    records that have a non-empty title: each has that title, the record's
    other values, and a score of 0 with an empty reason.  Records without a
    title are left out, so there are at most as many articles as records. *)
Theorem fetch_news_returns_titled_records
    (environ : gmap string string) (news_get : string -> news_outcome)
    (state : GraphState) (arts : list Article) :
  (fetch_news environ news_get state).1 = inr arts ->
  exists api_key records,
    environ !! "News_Api_Key" = Some api_key /\ api_key <> ""
    /\ (fetch_news environ news_get state).2
       = [news_url (default "india" (topic state)) api_key]
    /\ (news_get (news_url (default "india" (topic state)) api_key)
        = NewsJson (KeyValue records)
        \/ news_get (news_url (default "india" (topic state)) api_key)
           = NewsJson KeyMissing /\ records = [])
    /\ Forall2 (fun r a => article_of_raw r = inr a)
         (filter (fun r => has_title r = true) records) arts
    /\ Forall (fun a => title a <> "" /\ priority_score a = 0%Z
                        /\ priority_reason a = "") arts
    /\ length arts <= length records.
Proof.
  unfold fetch_news.
  destruct (environ !! "News_Api_Key") as [api_key|]; [|discriminate].
  destruct api_key as [|c api_key]; [discriminate|]. simpl.
  set (request := news_url (default "india" (topic state)) (String c api_key)).
  intros Hres. exists (String c api_key).
  assert (exists records,
            (news_get request = NewsJson (KeyValue records)
             \/ news_get request = NewsJson KeyMissing /\ records = [])
            /\ collect_articles records = inr arts) as (records & Hget & Hrun).
  { destruct (news_get request) as [msg|[| |records]]; try discriminate.
    - exists []. split; [by right | done].
    - exists records. split; [by left | done]. }
  exists records. apply collect_articles_inr in Hrun.
  split; [done|]. split; [done|]. split; [done|]. split; [done|].
  split; [done|]. split.
  - eapply articles_of_titled; [apply filter_has_title | exact Hrun].
  - rewrite <- (Forall2_length _ _ _ Hrun). apply length_filter.
Qed.

Lemma fetch_news_returns_titled_records_witness :
  exists api_key records,
    sample_environ !! "News_Api_Key" = Some api_key /\ api_key <> ""
    /\ (fetch_news sample_environ
          (sample_news [sample_raw_untitled; sample_raw_good])
          (sample_state None None)).2
       = [news_url "india" api_key]
    /\ (sample_news [sample_raw_untitled; sample_raw_good]
          (news_url "india" api_key)
        = NewsJson (KeyValue records)
        \/ sample_news [sample_raw_untitled; sample_raw_good]
             (news_url "india" api_key)
           = NewsJson KeyMissing /\ records = [])
    /\ Forall2 (fun r a => article_of_raw r = inr a)
         (filter (fun r => has_title r = true) records)
         [sample_article "BBC News" "2024-05-01T11:00:00Z" None]
    /\ Forall (fun a => title a <> "" /\ priority_score a = 0%Z
                        /\ priority_reason a = "")
         [sample_article "BBC News" "2024-05-01T11:00:00Z" None]
    /\ length [sample_article "BBC News" "2024-05-01T11:00:00Z" None]
       <= length records.
Proof.
  apply (fetch_news_returns_titled_records sample_environ
           (sample_news [sample_raw_untitled; sample_raw_good])
           (sample_state None None)).
  vm_compute. reflexivity.
Defined.

(** X2: [fetch_news] returns a list exactly when the key is there and not
    empty, the request is answered, ["articles"] is not [null], and every
    record with a title is usable: no [null] for its source, source name,
    description, URL or publication time.  One such [null] in one titled
    record makes the whole fetch raise; what a record without a title holds
    never matters. *)
Theorem fetch_news_succeeds_iff
    (environ : gmap string string) (news_get : string -> news_outcome)
    (state : GraphState) :
  (exists arts, (fetch_news environ news_get state).1 = inr arts) <->
  exists api_key,
    environ !! "News_Api_Key" = Some api_key /\ api_key <> ""
    /\ match news_get (news_url (default "india" (topic state)) api_key) with
       | NewsRaised _ => False
       | NewsJson KeyNull => False
       | NewsJson KeyMissing => True
       | NewsJson (KeyValue records) =>
           Forall (fun r => has_title r = true -> usable_record r) records
       end.
Proof.
  unfold fetch_news.
  destruct (environ !! "News_Api_Key") as [api_key|];
    [|split; [by intros [? ?] | by intros (? & ? & _)]].
  destruct api_key as [|c api_key];
    [split; [by intros [? ?] | by intros (? & [= <-] & ? & _)]|].
  simpl.
  set (request := news_url (default "india" (topic state)) (String c api_key)).
  split.
  - intros [arts Hres]. exists (String c api_key).
    split; [done|]. split; [done|]. fold request.
    destruct (news_get request) as [msg|[| |records]]; try done.
    apply collect_articles_succeeds. by exists arts.
  - intros (k & [= <-] & _ & Hok). fold request in Hok.
    destruct (news_get request) as [msg|[| |records]]; try done.
    + by eexists.
    + by apply collect_articles_succeeds.
Qed.

(** X3: without the API key, or with an empty one, [fetch_news] raises
    [ValueError("Missing News_Api_Key in .env")] and has requested nothing;
    that is the only way it requests nothing: with a key it makes exactly
    one request, whatever comes of it. *)
Theorem fetch_news_without_key
    (environ : gmap string string) (news_get : string -> news_outcome)
    (state : GraphState) :
  ((environ !! "News_Api_Key" = None \/ environ !! "News_Api_Key" = Some "")
   <-> fetch_news environ news_get state
       = (inl (ValueError "Missing News_Api_Key in .env"), []))
  /\ ((fetch_news environ news_get state).2 = []
      <-> (environ !! "News_Api_Key" = None
           \/ environ !! "News_Api_Key" = Some ""))
  /\ (forall api_key,
        environ !! "News_Api_Key" = Some api_key -> api_key <> "" ->
        (fetch_news environ news_get state).2
        = [news_url (default "india" (topic state)) api_key]).
Proof.
  unfold fetch_news.
  destruct (environ !! "News_Api_Key") as [[|c api_key]|]; simpl.
  - split; [split; [done | by right]|]. split; [split; [by right | done]|].
    by intros ? [= <-].
  - split; [split; [by intros [|] | discriminate]|].
    split; [split; [discriminate | by intros [|]]|].
    by intros ? [= <-].
  - split; [split; [done | by left]|]. split; [split; [by left | done]|].
    discriminate.
Qed.

(** ** Node 2: prioritize *)

Lemma prioritize_articles_elem
    (fromisoformat : string -> option datetime) (utc_now : nat -> Z)
    (state : GraphState) (a' : Article) :
  a' ∈ prioritize_articles fromisoformat utc_now state ->
  exists i a0,
    default [] (articles state) !! i = Some a0
    /\ a' = score_article fromisoformat (utc_now i) a0.
Proof.
  rewrite prioritize_articles_unfold. intros (j & Hin & _)%elem_of_take.
  apply list_elem_of_lookup_2 in Hin. rewrite sorted_desc_perm in Hin.
  apply list_elem_of_lookup in Hin as [i Hi].
  apply score_articles_lookup in Hi as (a0 & Ha0 & ->). eauto.
Qed.

(** Scoring writes the two score fields from the other fields alone: what
    the score fields held before does not matter. *)
Lemma score_article_overwrites
    (fromisoformat : string -> option datetime) (now now' : Z) (a : Article) :
  score_article fromisoformat now (score_article fromisoformat now' a)
  = score_article fromisoformat now a.
Proof. reflexivity. Qed.

Lemma sorted_desc_of_sorted {A} (key : A -> Z) (l : list A) :
  StronglySorted (fun x y => (key y <= key x)%Z) l -> sorted_desc key l = l.
Proof.
  intros Hsorted. symmetry. by apply sorted_desc_characterised.
Qed.

(** X4: every article that [prioritize_articles] returns is one of the
    input articles with nothing but its two score fields changed, and its
    score lies between 7 and 22. *)
Theorem prioritize_articles_keeps_fields_and_range
    (fromisoformat : string -> option datetime) (utc_now : nat -> Z)
    (state : GraphState) :
  Forall
    (fun a' =>
       (exists a0,
          a0 ∈ default [] (articles state)
          /\ title a' = title a0 /\ description a' = description a0
          /\ source a' = source a0 /\ author a' = author a0
          /\ url a' = url a0 /\ published_at a' = published_at a0
          /\ image_url a' = image_url a0)
       /\ (7 <= priority_score a' <= 22)%Z)
    (prioritize_articles fromisoformat utc_now state).
Proof.
  apply Forall_forall. intros a' (i & a0 & Hi & ->)%prioritize_articles_elem.
  split.
  - exists a0. split; [by eapply list_elem_of_lookup_2|]. by repeat split.
  - apply priority_score_range.
Qed.

(** X5: ranking is idempotent while the clock stands still: ranking the
    ranked articles again, as the new ["articles"], returns them as they
    are, in the same order and with the same scores. *)
Theorem prioritize_articles_idempotent
    (fromisoformat : string -> option datetime) (now : Z)
    (state : GraphState) :
  let rank := prioritize_articles fromisoformat (fun _ => now) in
  rank (set_articles (rank state) state) = rank state.
Proof.
  intros rank. unfold rank at 1. rewrite prioritize_articles_unfold. simpl.
  fold rank.
  assert (score_articles fromisoformat (fun _ => now) (rank state)
          = rank state) as ->.
  { unfold score_articles.
    apply list_eq. intros j. rewrite list_lookup_imap.
    destruct (rank state !! j) as [a'|] eqn:Hj; simpl; [|done].
    apply list_elem_of_lookup_2, prioritize_articles_elem in Hj
      as (i & a0 & _ & ->).
    by rewrite score_article_overwrites. }
  assert (StronglySorted
            (fun a b => (priority_score b <= priority_score a)%Z)
            (rank state)) as Hsorted.
  { unfold rank. rewrite prioritize_articles_unfold.
    eapply StronglySorted_app_1_l. rewrite take_drop.
    apply sorted_desc_sorted. }
  rewrite sorted_desc_of_sorted by done.
  apply take_ge. unfold rank. rewrite prioritize_articles_unfold, length_take.
  lia.
Qed.

(** X6: the recency score is one of 10, 8, 6, 4, 3 and 2, and it is 3
    exactly when no elapsed time could be taken (the parser rejected the
    timestamp, or gave one without an offset): a score of 3 always marks an
    unusable timestamp.  A timestamp that is not in the past scores 10. *)
Theorem calculate_recency_score_values
    (fromisoformat : string -> option datetime) (now : Z)
    (published : string) :
  let parsed := fromisoformat (PyStr.replace_char "Z" "+00:00" published) in
  let score := calculate_recency_score fromisoformat now published in
  score ∈ [10; 8; 6; 4; 3; 2]%Z
  /\ (score = 3%Z <-> forall pub, parsed <> Some (Aware pub))
  /\ (forall pub, parsed = Some (Aware pub) -> (now <= pub)%Z ->
                  score = 10%Z).
Proof.
  intros parsed score. unfold score, calculate_recency_score. fold parsed.
  destruct parsed as [[pub|wall]|].
  - split; [|split].
    + apply list_elem_of_In. unfold recency_of_hours. simpl.
      repeat case_match; lia.
    + split; [|by intros Hnone; destruct (Hnone pub)].
      unfold recency_of_hours. repeat case_match; discriminate.
    + intros ? [= <-] Hfuture.
      apply recency_of_hours_cases. unfold hours_between, Qle. simpl. lia.
  - split; [apply list_elem_of_In; simpl; lia|].
    split; [by split|]. discriminate.
  - split; [apply list_elem_of_In; simpl; lia|].
    split; [by split|]. discriminate.
Qed.

(** ** Node 3: rewrite *)

Lemma rewrite_each_None (llm_ainvoke : string -> string -> option string)
    (l : list Article) :
  rewrite_each llm_ainvoke l = None <->
  exists a,
    a ∈ l
    /\ llm_ainvoke
         "You are an expert journalist summarizing news for social media."
         (rewrite_prompt a) = None.
Proof.
  induction l as [|a l IH]; simpl.
  - split; [discriminate | by intros (a & ?%elem_of_nil & _)].
  - destruct (llm_ainvoke _ (rewrite_prompt a)) as [content|] eqn:Hreply;
      simpl.
    + destruct (rewrite_each llm_ainvoke l) as [rest|]; simpl.
      * split; [discriminate|].
        intros (a' & [->|Hin]%elem_of_cons & Hnone); [congruence|].
        assert (Some rest = None) as Habs by (apply IH; eauto).
        discriminate.
      * split; [|done]. intros _.
        destruct (proj1 IH eq_refl) as (a' & Hin & Hnone).
        exists a'. split; [by right | done].
    + split; [|done]. intros _. exists a. split; [by left | done].
Qed.

(** X7: [rewrite_news] is all or nothing: it raises exactly when the model
    call raises for one of the top articles, whichever it is; otherwise it
    returns a list.  A state without ["top_articles"] gives the empty list,
    with no call made. *)
Theorem rewrite_news_all_or_nothing
    (llm_ainvoke : string -> string -> option string) (state : GraphState) :
  (rewrite_news llm_ainvoke state = None <->
   exists a,
     a ∈ default [] (top_articles state)
     /\ llm_ainvoke
          "You are an expert journalist summarizing news for social media."
          (rewrite_prompt a) = None)
  /\ (top_articles state = None \/ top_articles state = Some [] ->
      rewrite_news llm_ainvoke state = Some []).
Proof.
  split; [apply rewrite_each_None|].
  unfold rewrite_news. by intros [-> | ->].
Qed.

(** X8: the posts that [rewrite_news] returns are one per top article, in
    the order of the articles, and none is longer than 250 characters,
    whatever the model replied. *)
Theorem rewrite_news_one_short_post_per_article
    (llm_ainvoke : string -> string -> option string) (state : GraphState)
    (posts : list string) :
  rewrite_news llm_ainvoke state = Some posts ->
  length posts = length (default [] (top_articles state))
  /\ Forall (fun post => String.length post <= 250) posts
  /\ forall i a,
       default [] (top_articles state) !! i = Some a ->
       exists content,
         llm_ainvoke
           "You are an expert journalist summarizing news for social media."
           (rewrite_prompt a) = Some content
         /\ posts !! i = Some (clean_tweet content).
Proof.
  intros Hposts%rewrite_news_posts.
  split; [symmetry; by eapply Forall2_length|]. split.
  - induction Hposts as [|a post l posts (content & _ & ->) _ IH];
      constructor; [|done].
    rewrite clean_tweet_length. lia.
  - intros i a Hi.
    destruct (Forall2_lookup_l _ _ _ _ _ Hposts Hi)
      as (post & Hpost & content & Hreply & ->).
    by exists content.
Qed.

Lemma rewrite_news_one_short_post_per_article_witness :
  length ["Big news today"; "Big news today"; "Big news today"]
  = length [sample_bbc; sample_cnn; sample_blog]
  /\ Forall (fun post => String.length post <= 250)
       ["Big news today"; "Big news today"; "Big news today"]
  /\ forall i a,
       [sample_bbc; sample_cnn; sample_blog] !! i = Some a ->
       exists content,
         sample_llm
           "You are an expert journalist summarizing news for social media."
           (rewrite_prompt a) = Some content
         /\ ["Big news today"; "Big news today"; "Big news today"] !! i
            = Some (clean_tweet content).
Proof.
  apply (rewrite_news_one_short_post_per_article sample_llm
           (sample_state None None)).
  vm_compute. reflexivity.
Defined.

(** The scan only takes characters out. *)
Lemma sub_links_sublist (s : list ascii) : Re.sub_links s `sublist_of` s.
Proof.
  remember (length s) as n eqn:Hn. revert s Hn.
  induction (lt_wf n) as [n _ IH]; intros s ->.
  destruct s as [|c s]; [done|].
  destruct (Re.match_link (c :: s)) as [[text rest]|] eqn:E.
  - rewrite (sub_links_match _ _ _ E).
    pose proof (IH _ (match_link_shorter _ _ _ E) rest eq_refl) as Hrest.
    apply match_link_Some in E as (target & -> & _).
    apply sublist_cons, sublist_app; [done|].
    do 2 apply sublist_cons. apply sublist_inserts_l.
    by apply sublist_cons.
  - rewrite (sub_links_skip _ _ E). apply sublist_skip.
    apply (IH (length s)); [simpl; lia | done].
Qed.

Lemma strip_sublist (s : list ascii) : PyStr.strip s `sublist_of` s.
Proof.
  destruct (strip_spec s) as (l & r & Hs & _). rewrite Hs at 2.
  by apply sublist_inserts_l, sublist_inserts_r.
Qed.

(** X9: post-processing only deletes: the post is the model output with
    some characters taken out, the others in their order; it adds and
    changes none. *)
Theorem clean_tweet_only_deletes (content : string) :
  list_ascii_of_string (clean_tweet content)
  `sublist_of` list_ascii_of_string content.
Proof.
  rewrite clean_tweet_chars.
  etrans; [apply sublist_take|].
  etrans; [apply sub_links_sublist | apply strip_sublist].
Qed.

Lemma lstrip_fixed (s : list ascii) :
  (forall c t, s = c :: t -> PyStr.isspace c = false) -> PyStr.lstrip s = s.
Proof.
  intros Hhead. destruct s as [|c s]; [done|]. simpl.
  by rewrite (Hhead c s eq_refl).
Qed.

Lemma strip_fixed (s : list ascii) :
  (forall c t, s = c :: t -> PyStr.isspace c = false) ->
  (forall c t, s = t ++ [c] -> PyStr.isspace c = false) ->
  PyStr.strip s = s.
Proof.
  intros Hhead Hlast. unfold PyStr.strip, PyStr.rstrip.
  rewrite (lstrip_fixed s) by done.
  rewrite lstrip_fixed; [apply rev_involutive|].
  intros c t Hrev. apply (Hlast c (rev t)).
  rewrite <- (rev_involutive s), Hrev. simpl. done.
Qed.

(** X10: text without "[" (or without "]") holds no link: it comes out
    trimmed and cut at 250 characters, with nothing else changed; and text
    of at most 250 characters that neither starts nor ends with whitespace
    comes out as it went in. *)
Theorem clean_tweet_plain_text (content : string) :
  let chars := list_ascii_of_string content in
  "["%char ∉ chars \/ "]"%char ∉ chars ->
  list_ascii_of_string (clean_tweet content) = take 250 (PyStr.strip chars)
  /\ (String.length content <= 250 ->
      (forall c t, chars = c :: t -> PyStr.isspace c = false) ->
      (forall c t, chars = t ++ [c] -> PyStr.isspace c = false) ->
      clean_tweet content = content).
Proof.
  intros chars Hplain.
  assert (forall s : list ascii,
            "["%char ∉ s \/ "]"%char ∉ s -> Re.sub_links s = s) as Hscan.
  { intros s [Hopen|Hclose]; [|by apply sub_links_no_close].
    rewrite <- (app_nil_r s) at 1.
    rewrite sub_links_app_no_open by done. apply app_nil_r. }
  split.
  - rewrite clean_tweet_chars. fold chars. f_equal. apply Hscan.
    pose proof (sublist_subseteq _ _ (strip_sublist chars)) as Hsub.
    destruct Hplain as [Hopen|Hclose]; [left | right];
      intros Hin; by apply Hsub in Hin.
  - intros Hshort Hhead Hlast. unfold clean_tweet. fold chars.
    rewrite strip_fixed, Hscan by done.
    rewrite slice_to_nonneg by lia. rewrite take_ge.
    + apply string_of_list_ascii_of_string.
    + unfold chars.
      rewrite <- (string_of_list_ascii_of_string content) in Hshort.
      rewrite length_string_of_list_ascii in Hshort.
      change (Z.to_nat 250) with 250. done.
Qed.

Lemma clean_tweet_plain_text_witness :
  list_ascii_of_string (clean_tweet "  Markets rally (again) ")
  = take 250 (PyStr.strip (list_ascii_of_string "  Markets rally (again) ")).
Proof.
  apply (clean_tweet_plain_text "  Markets rally (again) ").
  left. vm_compute. intros Hin.
  repeat (apply elem_of_cons in Hin as [Hin|Hin]; [discriminate Hin|]).
  by apply elem_of_nil in Hin.
Defined.

(** ** Node 4: post to Twitter *)

Lemma post_to_twitter_raise_world
    (env : collaborators) (state : GraphState) (w : world) (msg : string) :
  (post_to_twitter env state w).1 = inl msg ->
  msg = "Twitter clients not initialized properly"
  /\ (post_to_twitter env state w).2 = w.
Proof.
  unfold post_to_twitter. destruct (negb (read_auto_post state)); [done|].
  destruct (twitter_client env) as [client|];
    [destruct (twitter_api_v1 env) as [api_v1|]|].
  - by destruct (publish_pairs env client api_v1 _ w).
  - by intros [= <-].
  - by intros [= <-].
Qed.

(** X11: the stage raises in one situation only: auto-post is on and one of
    the two clients was not built.  It then raises
    "Twitter clients not initialized properly" before anything else: the
    world is as it was, whatever posts and limit the state holds. *)
Theorem post_to_twitter_raises_iff
    (env : collaborators) (state : GraphState) (w : world) :
  ((exists msg, (post_to_twitter env state w).1 = inl msg) <->
   read_auto_post state = true
   /\ (twitter_client env = None \/ twitter_api_v1 env = None))
  /\ (forall msg,
        (post_to_twitter env state w).1 = inl msg ->
        msg = "Twitter clients not initialized properly"
        /\ (post_to_twitter env state w).2 = w).
Proof.
  split; [|intros msg; apply post_to_twitter_raise_world].
  destruct (read_auto_post state) eqn:Hmode.
  - destruct (twitter_client env) as [client|] eqn:Hc.
    + destruct (twitter_api_v1 env) as [api_v1|] eqn:Ha.
      * rewrite (post_to_twitter_live env state w client api_v1) by done.
        simpl. split; [by intros [? ?] | by intros [_ [|]]].
      * rewrite post_to_twitter_uninitialised; [|done|by right]. simpl.
        split; [by auto | by eexists].
    + rewrite post_to_twitter_uninitialised; [|done|by left]. simpl.
      split; [by auto | by eexists].
  - rewrite post_to_twitter_preview by done. simpl.
    split; [by intros [? ?] | by intros [? _]].
Qed.

(** X12: the image block ends with a media id exactly when the article has
    a non-empty image URL, the fetch answers 200 and the upload returns that
    id.  For an article without an image URL, or with an empty one, it
    requests nothing and writes no file. *)
Theorem try_image_media_iff
    (env : collaborators)
    (api_v1 : list event -> gmap nat string -> nat -> upload_outcome)
    (a : Article) (w : world) :
  (forall m,
     (try_image env api_v1 a w).1 = Some m <->
     exists target bytes,
       image_url a = Some target /\ target <> ""
       /\ requests_get env (calls w) target = HttpResponse 200 bytes
       /\ media_upload_answer api_v1 bytes (record_call (HttpGet target) w)
          = UploadDone m)
  /\ (image_url a = None \/ image_url a = Some "" ->
      try_image env api_v1 a w = (None, w)).
Proof.
  split.
  - intros m.
    destruct (try_image_cases env api_v1 a w)
      as [[Hno ->]|(target & Himg & Hne & Hcase)].
    { split; [discriminate|]. intros (target & bytes & Himg & Hne & _).
      rewrite Himg in Hno. by destruct target. }
    simpl in Hcase. split.
    + intros Hsome. exists target.
      destruct (requests_get env (calls w) target) as [msg|status bytes].
      * by rewrite Hcase in Hsome.
      * destruct Hcase as [[_ Hcase]|[-> Hcase]]; rewrite Hcase in Hsome;
          [done|].
        exists bytes. split; [done|]. split; [done|]. split; [done|].
        rewrite upload_from_tmp_media in Hsome.
        destruct (media_upload_answer _ _ _); congruence.
    + intros (target' & bytes & Himg' & _ & Hget & Hup).
      rewrite Himg in Himg'. injection Himg' as <-.
      rewrite Hget in Hcase. destruct Hcase as [[? _]|[_ ->]]; [done|].
      by rewrite upload_from_tmp_media, Hup.
  - intros [Himg|Himg]; unfold try_image; by rewrite Himg.
Qed.

Section WorldFacts.

Variable env : collaborators.
Variable client : list event -> string -> option (list Z) -> tweet_outcome.
Variable api_v1 : list event -> gmap nat string -> nat -> upload_outcome.

(** The image block leaves the files that were there, adds at most one,
    and leaves no handle open that was not. *)
Lemma try_image_disk (a : Article) (w : world) :
  let w' := (try_image env api_v1 a w).2 in
  tmp_files w ⊆ tmp_files w'
  /\ size (tmp_files w') <= S (size (tmp_files w))
  /\ open_files w' ⊆ open_files w.
Proof.
  intros w'. unfold w'.
  destruct (try_image_cases env api_v1 a w)
    as [[_ ->]|(target & _ & _ & Hcase)];
    [simpl; split; [done | split; [lia | done]]|].
  simpl in Hcase.
  destruct (requests_get env (calls w) target) as [msg|status bytes].
  - rewrite Hcase. simpl. split; [done | split; [lia | done]].
  - destruct Hcase as [[_ ->]|[_ ->]];
      [simpl; split; [done | split; [lia | done]]|].
    destruct (upload_from_tmp_world api_v1 bytes
                (record_call (HttpGet target) w))
      as (Hnew & -> & -> & _). simpl in *.
    split; [by apply insert_subseteq|].
    split; [by rewrite map_size_insert_None|].
    intros x. rewrite elem_of_difference, elem_of_union. tauto.
Qed.

Lemma publish_one_disk (tweet : string) (a : Article) (w : world) :
  let w' := (publish_one env client api_v1 tweet a w).2 in
  tmp_files w ⊆ tmp_files w'
  /\ size (tmp_files w') <= S (size (tmp_files w))
  /\ open_files w' ⊆ open_files w.
Proof.
  intros w'. unfold w'. rewrite publish_one_spec, try_post_spec. simpl.
  apply try_image_disk.
Qed.

Lemma publish_pairs_disk (pairs : list (string * Article)) (w : world) :
  let w' := (publish_pairs env client api_v1 pairs w).2 in
  tmp_files w ⊆ tmp_files w'
  /\ size (tmp_files w') <= size (tmp_files w) + length pairs
  /\ open_files w' ⊆ open_files w.
Proof.
  revert w. induction pairs as [|[tweet a] rest IH]; intros w.
  - simpl. split; [done | split; [lia | done]].
  - rewrite publish_pairs_cons. simpl.
    destruct (publish_one_disk tweet a w) as (Hd1 & Hs1 & Ho1).
    destruct (IH (publish_one env client api_v1 tweet a w).2)
      as (Hd2 & Hs2 & Ho2).
    split; [by etrans|]. split; [lia | by etrans].
Qed.

(** The results of the loop, pair by pair. *)
Lemma publish_pairs_Forall2 (pairs : list (string * Article)) (w : world) :
  Forall2
    (fun pair r =>
       tweet_text r = full_tweet pair.1 pair.2
       /\ (success r = true ->
           exists id, tweet_id r = Some id
                      /\ tweet_url r
                         = Some ("https://x.com/user/status/" ++ id)%string)
       /\ (success r = false -> exists msg, error r = Some msg))
    pairs (publish_pairs env client api_v1 pairs w).1.
Proof.
  revert w. induction pairs as [|[tweet a] rest IH]; intros w;
    [constructor|].
  rewrite publish_pairs_cons. simpl. constructor; [|apply IH].
  rewrite publish_one_spec, try_post_spec. simpl.
  destruct (client _ _ _) as [msg|id]; simpl.
  - split; [done|]. split; [discriminate | by eexists].
  - split; [done|]. split; [by eexists | discriminate].
Qed.

End WorldFacts.

(** X13: a run of the stage only adds to the world: the requests made
    before stay at the head of the log, the temporary files that were on
    the disk stay as they were, at most one file per result is added, and
    no handle is open afterwards that was not open before. *)
Theorem post_to_twitter_only_adds
    (env : collaborators) (state : GraphState) (w : world) :
  let run := post_to_twitter env state w in
  calls w `prefix_of` calls run.2
  /\ tmp_files w ⊆ tmp_files run.2
  /\ size (tmp_files run.2)
     <= size (tmp_files w) + length (stage_results run)
  /\ open_files run.2 ⊆ open_files w.
Proof.
  intros run. unfold run.
  destruct (read_auto_post state) eqn:Hmode.
  - destruct (twitter_client env) as [client|] eqn:Hc.
    + destruct (twitter_api_v1 env) as [api_v1|] eqn:Ha.
      * rewrite (post_to_twitter_live env state w client api_v1) by done.
        unfold stage_results. simpl. rewrite publish_pairs_length.
        split; [apply publish_pairs_calls|]. apply publish_pairs_disk.
      * rewrite post_to_twitter_uninitialised; [|done|by right]. simpl.
        split; [done|]. split; [done|]. split; [lia | done].
    + rewrite post_to_twitter_uninitialised; [|done|by left]. simpl.
      split; [done|]. split; [done|]. split; [lia | done].
  - rewrite post_to_twitter_preview by done. simpl.
    split; [done|]. split; [done|]. split; [lia | done].
Qed.

(** X14: in live mode result [i] belongs to pair [i]: its text is post [i],
    a blank line, and the URL of article [i], whether the post went out or
    not; a success carries the id the platform gave and the URL
    "https://x.com/user/status/" followed by that id; a failure carries an
    error message. *)
Theorem live_results_follow_pairs
    (env : collaborators) (state : GraphState) (w : world) client api_v1 :
  read_auto_post state = true ->
  twitter_client env = Some client -> twitter_api_v1 env = Some api_v1 ->
  let n := read_num_to_post state in
  let pairs := zip (PyStr.slice_to n (default [] (rewritten_tweets state)))
                   (PyStr.slice_to n (default [] (top_articles state))) in
  Forall2
    (fun pair r =>
       tweet_text r
       = (pair.1 ++ String PyStr.LF (String PyStr.LF (url pair.2)))%string
       /\ (success r = true ->
           exists id, tweet_id r = Some id
                      /\ tweet_url r
                         = Some ("https://x.com/user/status/" ++ id)%string)
       /\ (success r = false -> exists msg, error r = Some msg))
    pairs (stage_results (post_to_twitter env state w)).
Proof.
  intros Hon Hc Ha n pairs.
  rewrite (post_to_twitter_live env state w client api_v1) by done.
  unfold stage_results. simpl. apply publish_pairs_Forall2.
Qed.

Lemma live_results_follow_pairs_witness :
  Forall2
    (fun pair r =>
       tweet_text r
       = (pair.1 ++ String PyStr.LF (String PyStr.LF (url pair.2)))%string
       /\ (success r = true ->
           exists id, tweet_id r = Some id
                      /\ tweet_url r
                         = Some ("https://x.com/user/status/" ++ id)%string)
       /\ (success r = false -> exists msg, error r = Some msg))
    [("first", sample_bbc); ("second", sample_cnn)]
    (stage_results
       (post_to_twitter flaky_env
          (sample_state (Some (AutoPostBool true)) (Some 2%Z)) empty_world)).
Proof.
  apply (live_results_follow_pairs flaky_env
           (sample_state (Some (AutoPostBool true)) (Some 2%Z)) empty_world
           flaky_client flaky_api eq_refl eq_refl eq_refl).
Defined.

(** X15: how the limit is read in preview mode.  A negative limit [n] does
    not mean "none": the stage previews all posts but the last [-n].  A
    limit of 0 previews none, and a limit of at least the number of posts
    previews them all. *)
Theorem preview_limit_edges
    (env : collaborators) (state : GraphState) (w : world) :
  read_auto_post state = false ->
  let n := read_num_to_post state in
  let tweets := default [] (rewritten_tweets state) in
  let shown := stage_results (post_to_twitter env state w) in
  ((n < 0)%Z ->
   shown = map preview_result
             (take (length tweets - Z.to_nat (- n)) tweets))
  /\ (n = 0%Z -> shown = [])
  /\ ((Z.of_nat (length tweets) <= n)%Z -> shown = map preview_result tweets).
Proof.
  intros Hoff n tweets shown. unfold shown.
  rewrite post_to_twitter_preview by done. unfold stage_results. simpl.
  fold n. fold tweets. unfold PyStr.slice_to.
  split; [|split].
  - intros Hneg. destruct (Z.leb_spec 0 n); [lia | done].
  - intros ->. done.
  - intros Hall. destruct (Z.leb_spec 0 n); [|lia].
    rewrite take_ge by lia. done.
Qed.

Lemma preview_limit_edges_witness :
  let shown := stage_results
                 (post_to_twitter offline_env
                    (sample_state None (Some (-1)%Z)) empty_world) in
  (((-1) < 0)%Z -> shown = map preview_result ["first"; "second"])
  /\ ((-1)%Z = 0%Z -> shown = [])
  /\ ((3 <= -1)%Z -> shown = map preview_result ["first"; "second"; "third"]).
Proof.
  apply (preview_limit_edges offline_env
           (sample_state None (Some (-1)%Z)) empty_world).
  reflexivity.
Defined.

(** ** The graph and the entry point *)

Lemma slice_to_take {A} (n : Z) (l : list A) :
  PyStr.slice_to n l
  = take (if (0 <=? n)%Z then Z.to_nat n else length l - Z.to_nat (- n)) l.
Proof. unfold PyStr.slice_to. by destruct (0 <=? n)%Z. Qed.

Lemma count_posted_le (results : list TweetResult) :
  count_posted results <= length results.
Proof. apply length_filter. Qed.

Lemma count_posted_previews (l : list string) :
  count_posted (map preview_result l) = 0.
Proof.
  unfold count_posted. induction l as [|t l IH]; [done|]. simpl.
  rewrite filter_cons_False by done. exact IH.
Qed.

Section GraphFacts.

Variable environ : gmap string string.
Variable news_get : string -> news_outcome.
Variable fromisoformat : string -> option datetime.
Variable utc_now : nat -> Z.
Variable llm_ainvoke : string -> string -> option string.
Variable env : collaborators.

(** A run, node by node. *)
Lemma run_graph_cases (input_state : GraphState) (w : world) :
  let run := run_graph environ news_get fromisoformat utc_now llm_ainvoke
               env input_state w in
  match (fetch_news environ news_get input_state).1 with
  | inl e => run = (inl e, w)
  | inr fetched =>
      let top := prioritize_articles fromisoformat utc_now
                   (set_articles fetched input_state) in
      match rewrite_each llm_ainvoke top with
      | None => run = (inl ModelError, w)
      | Some posts =>
          let st :=
            publish_state fromisoformat utc_now input_state fetched posts in
          rewritten_tweets st = Some posts
          /\ top_articles st = Some top
          /\ read_auto_post st = read_auto_post input_state
          /\ read_num_to_post st = read_num_to_post input_state
          /\ run = (match (post_to_twitter env st w).1 with
                    | inl msg => inl (PlainException msg)
                    | inr results => inr (posts, results)
                    end, (post_to_twitter env st w).2)
      end
  end.
Proof.
  intros run. unfold run, run_graph.
  destruct (fetch_news environ news_get input_state).1 as [e|fetched];
    [done|].
  unfold rewrite_news. simpl.
  destruct (rewrite_each llm_ainvoke _) as [posts|]; [|done].
  repeat split.
  fold (publish_state fromisoformat utc_now input_state fetched posts).
  by destruct (post_to_twitter env _ w) as [[msg|results] w'].
Qed.

Lemma run_graph_raise_world (input_state : GraphState) (w : world) (e : exn) :
  (run_graph environ news_get fromisoformat utc_now llm_ainvoke env
     input_state w).1 = inl e ->
  (run_graph environ news_get fromisoformat utc_now llm_ainvoke env
     input_state w).2 = w
  /\ ((fetch_news environ news_get input_state).1 = inl e
      \/ e = ModelError
      \/ e = PlainException "Twitter clients not initialized properly").
Proof.
  pose proof (run_graph_cases input_state w) as Hrun. simpl in Hrun.
  destruct (fetch_news environ news_get input_state).1 as [e'|fetched].
  { rewrite Hrun. simpl. intros [= <-]. auto. }
  destruct (rewrite_each llm_ainvoke _) as [posts|].
  2: { rewrite Hrun. simpl. intros [= <-]. auto. }
  destruct Hrun as (_ & _ & _ & _ & ->). simpl.
  set (st := publish_state fromisoformat utc_now input_state fetched posts).
  destruct (post_to_twitter env st w).1 as [msg|results] eqn:Hpost;
    [|discriminate].
  intros [= <-].
  destruct (post_to_twitter_raise_world env st w msg Hpost) as [-> ->].
  auto.
Qed.

End GraphFacts.

Lemma rewrite_each_posts (llm_ainvoke : string -> string -> option string)
    (l : list Article) (posts : list string) :
  rewrite_each llm_ainvoke l = Some posts ->
  length posts = length l
  /\ Forall (fun post => String.length post <= 250) posts.
Proof.
  revert posts. induction l as [|a l IH]; simpl; intros posts.
  - intros [= <-]. by split.
  - destruct (llm_ainvoke _ (rewrite_prompt a)) as [content|]; simpl;
      [|discriminate].
    destruct (rewrite_each llm_ainvoke l) as [rest|]; simpl; [|discriminate].
    intros [= <-]. destruct (IH rest eq_refl) as [Hlen Hshort].
    split; [simpl; by rewrite Hlen|].
    constructor; [rewrite clean_tweet_length; lia | done].
Qed.

Lemma prioritize_articles_length
    (fromisoformat : string -> option datetime) (utc_now : nat -> Z)
    (state : GraphState) :
  length (prioritize_articles fromisoformat utc_now state)
  = Nat.min 5 (length (default [] (articles state))).
Proof.
  rewrite prioritize_articles_unfold, length_take.
  by rewrite (Permutation_length (sorted_desc_perm _ _)),
             score_articles_length.
Qed.

Section GraphClaims.

Variable environ : gmap string string.
Variable news_get : string -> news_outcome.
Variable fromisoformat : string -> option datetime.
Variable utc_now : nat -> Z.
Variable llm_ainvoke : string -> string -> option string.
Variable env : collaborators.

(** What a run that returns was made of. *)
Lemma run_graph_inr (input_state : GraphState) (w : world)
    (posts : list string) (results : list TweetResult) (w' : world) :
  run_graph environ news_get fromisoformat utc_now llm_ainvoke env
    input_state w = (inr (posts, results), w') ->
  exists fetched,
    let top := prioritize_articles fromisoformat utc_now
                 (set_articles fetched input_state) in
    let st := publish_state fromisoformat utc_now input_state fetched posts in
    (fetch_news environ news_get input_state).1 = inr fetched
    /\ rewrite_each llm_ainvoke top = Some posts
    /\ length top = Nat.min 5 (length fetched)
    /\ length posts = length top
    /\ rewritten_tweets st = Some posts
    /\ top_articles st = Some top
    /\ read_auto_post st = read_auto_post input_state
    /\ read_num_to_post st = read_num_to_post input_state
    /\ post_to_twitter env st w = (inr results, w').
Proof.
  pose proof (run_graph_cases environ news_get fromisoformat utc_now
                llm_ainvoke env input_state w) as Hrun. simpl in Hrun.
  destruct (fetch_news environ news_get input_state).1 as [e|fetched];
    [by rewrite Hrun|].
  destruct (rewrite_each llm_ainvoke _) as [posts'|] eqn:Hposts;
    [|by rewrite Hrun].
  destruct Hrun as (Hrw & Htop & Hauto & Hnum & ->).
  destruct (post_to_twitter env _ w) as [[msg|results'] w''] eqn:Hpost;
    simpl; [discriminate|].
  intros [= <- <- <-]. exists fetched. simpl.
  split; [done|]. split; [done|].
  split; [apply prioritize_articles_length|].
  split; [by apply rewrite_each_posts in Hposts as [? _]|].
  done.
Qed.

(** X16: the numbers of a run that returns.  At most five posts are
    generated, exactly min(5, number of fetched articles), none longer than
    250 characters; there are never more results than posts, and for a
    limit that is not negative exactly min(limit, number of posts); the
    stage asks for at most one tweet per result. *)
Theorem run_graph_counts (input_state : GraphState) (w : world)
    (posts : list string) (results : list TweetResult) (w' : world) :
  run_graph environ news_get fromisoformat utc_now llm_ainvoke env
    input_state w = (inr (posts, results), w') ->
  exists fetched,
    (fetch_news environ news_get input_state).1 = inr fetched
    /\ length posts = Nat.min 5 (length fetched)
    /\ Forall (fun post => String.length post <= 250) posts
    /\ length results <= length posts
    /\ ((0 <= read_num_to_post input_state)%Z ->
        length results
        = Nat.min (Z.to_nat (read_num_to_post input_state)) (length posts))
    /\ count_posted results <= length results
    /\ post_attempts w' <= post_attempts w + length results.
Proof.
  intros (fetched & Hrun)%run_graph_inr. cbv zeta in Hrun.
  destruct Hrun
    as (Hfetch & Hposts & Htop & Hlen & Hrw & Hta & Hauto & Hnum & Hpost).
  exists fetched. split; [done|]. split; [congruence|].
  split; [by apply rewrite_each_posts in Hposts as [_ ?]|].
  set (st := publish_state fromisoformat utc_now input_state fetched posts)
    in *.
  set (top := prioritize_articles fromisoformat utc_now
                (set_articles fetched input_state)) in *.
  assert (results = stage_results (post_to_twitter env st w)) as Hres
    by (by rewrite Hpost).
  assert (w' = (post_to_twitter env st w).2) as Hw by (by rewrite Hpost).
  pose proof (stage_results_cases env st w) as Hcases. cbv zeta in Hcases.
  rewrite <- Hres in Hcases.
  rewrite Hrw, Hta, Hnum, Hauto in Hcases. simpl in Hcases.
  split.
  { rewrite Hres. etrans; [apply stage_results_length|].
    rewrite Hrw. simpl. rewrite slice_to_take, length_take. lia. }
  split.
  { intros Hn. destruct (read_auto_post input_state) eqn:Hmode.
    - destruct (twitter_client env) as [client|] eqn:Hc;
        [destruct (twitter_api_v1 env) as [api_v1|] eqn:Ha|].
      + rewrite Hcases, publish_pairs_length, length_zip.
        rewrite !slice_to_length_nonneg by done. lia.
      + rewrite post_to_twitter_uninitialised in Hpost;
          [done | congruence | by right].
      + rewrite post_to_twitter_uninitialised in Hpost;
          [done | congruence | by left].
    - rewrite Hcases, length_map. by rewrite slice_to_length_nonneg. }
  split; [apply count_posted_le|].
  destruct (read_auto_post input_state) eqn:Hmode.
  - destruct (twitter_client env) as [client|] eqn:Hc;
      [destruct (twitter_api_v1 env) as [api_v1|] eqn:Ha|].
    + rewrite (post_to_twitter_live env st w client api_v1) in Hw
        by congruence.
      simpl in Hw. rewrite Hw, publish_pairs_attempts.
      rewrite Hcases, publish_pairs_length.
      rewrite Hnum. fold top. lia.
    + rewrite post_to_twitter_uninitialised in Hpost;
        [done | congruence | by right].
    + rewrite post_to_twitter_uninitialised in Hpost;
        [done | congruence | by left].
  - rewrite post_to_twitter_preview in Hw by congruence. simpl in Hw.
    rewrite Hw. lia.
Qed.


(** X17: in a run that returns, result [i] belongs to post [i] and to the
    article ranked [i]: the ranked articles and the posts are equally many,
    every result has its post and its article at its own index, and its
    text is the post itself in preview mode and the post, a blank line and
    the URL of that article in live mode. *)
Theorem run_graph_results_match_articles (input_state : GraphState)
    (w : world) (posts : list string) (results : list TweetResult)
    (w' : world) :
  run_graph environ news_get fromisoformat utc_now llm_ainvoke env
    input_state w = (inr (posts, results), w') ->
  exists fetched top,
    (fetch_news environ news_get input_state).1 = inr fetched
    /\ top = prioritize_articles fromisoformat utc_now
               (set_articles fetched input_state)
    /\ length top = length posts
    /\ forall i r,
         results !! i = Some r ->
         exists post a,
           posts !! i = Some post /\ top !! i = Some a
           /\ tweet_text r
              = if read_auto_post input_state
                then (post ++ String PyStr.LF (String PyStr.LF (url a)))%string
                else post.
Proof.
  intros (fetched & Hrun)%run_graph_inr. cbv zeta in Hrun.
  destruct Hrun
    as (Hfetch & Hposts & Htop & Hlen & Hrw & Hta & Hauto & Hnum & Hpost).
  set (st := publish_state fromisoformat utc_now input_state fetched posts)
    in *.
  set (top := prioritize_articles fromisoformat utc_now
                (set_articles fetched input_state)) in *.
  exists fetched, top. split; [done|]. split; [done|]. split; [done|].
  assert (results = stage_results (post_to_twitter env st w)) as Hres
    by (by rewrite Hpost).
  pose proof (stage_results_cases env st w) as Hcases. cbv zeta in Hcases.
  rewrite <- Hres in Hcases.
  rewrite Hrw, Hta, Hnum, Hauto in Hcases. simpl in Hcases.
  intros i r Hr.
  assert (forall post, posts !! i = Some post -> exists a, top !! i = Some a)
    as Harticle.
  { intros post Hi%lookup_lt_Some. apply lookup_lt_is_Some. lia. }
  destruct (read_auto_post input_state) eqn:Hmode.
  - destruct (twitter_client env) as [client|] eqn:Hc;
      [destruct (twitter_api_v1 env) as [api_v1|] eqn:Ha|];
      [|by rewrite Hcases in Hr..].
    rewrite Hcases in Hr.
    destruct (Forall2_lookup_r _ _ _ _ _
                (publish_pairs_Forall2 env client api_v1 _ w) Hr)
      as ([post a] & Hpair & Htext & _).
    apply lookup_zip_with_Some in Hpair
      as (post' & a' & [= -> ->] & Hp & Ha').
    rewrite slice_to_take in Hp. rewrite slice_to_take in Ha'.
    apply lookup_take_Some in Hp as [Hp _].
    apply lookup_take_Some in Ha' as [Ha' _].
    exists post', a'. by repeat split.
  - rewrite Hcases, list_lookup_fmap, slice_to_take in Hr.
    destruct (take _ posts !! i) as [post|] eqn:Hp; [|done].
    injection Hr as <-. apply lookup_take_Some in Hp as [Hp _].
    destruct (Harticle post Hp) as [a Ha']. by exists post, a.
Qed.

(** X18: what [main] makes of the environment.  The topic is [NEWS_TOPIC],
    "india" when unset; auto-post is a bool, true exactly when
    [AUTO_POST_TWEETS] is set to "true" in any case of letters, so the
    stage reads it as such; the limit is [int] of [NUM_TWEETS_TO_POST], of
    "2" when unset; and the four lists start empty.  Every key is there, so
    the defaults of the nodes for a missing key never apply. *)
Theorem main_input_state_reads_environment
    (int_of_str : string -> option Z) (st : GraphState) :
  main_input_state int_of_str environ = Some st ->
  topic st = Some (default "india" (environ !! "NEWS_TOPIC"))
  /\ (exists b, auto_post st = Some (AutoPostBool b)
                /\ read_auto_post st = b
                /\ (b = true <->
                    exists s, environ !! "AUTO_POST_TWEETS" = Some s
                              /\ equals_true_ignoring_case s))
  /\ num_tweets_to_post st
     = int_of_str (default "2" (environ !! "NUM_TWEETS_TO_POST"))
  /\ is_Some (num_tweets_to_post st)
  /\ articles st = Some [] /\ top_articles st = Some []
  /\ rewritten_tweets st = Some [] /\ tweet_results st = Some [].
Proof.
  unfold main_input_state.
  destruct (int_of_str (default "2" (environ !! "NUM_TWEETS_TO_POST")))
    as [n|]; simpl; [|discriminate].
  intros [= <-]. simpl. split; [done|]. split; [|by repeat split].
  eexists. split; [done|]. split; [done|].
  rewrite String.eqb_eq, lower_is_true.
  destruct (environ !! "AUTO_POST_TWEETS") as [s|]; simpl.
  - split; [by exists s | by intros (s' & [= <-] & ?)].
  - split; [|by intros (s' & ? & _)].
    intros (c1 & c2 & c3 & c4 & Hs & _). discriminate Hs.
Qed.


Lemma main_input_state_read_auto_post
    (int_of_str : string -> option Z) (st : GraphState) :
  main_input_state int_of_str environ = Some st ->
  read_auto_post st
  = String.eqb
      (PyStr.lower (default "false" (environ !! "AUTO_POST_TWEETS"))) "true".
Proof.
  unfold main_input_state.
  destruct (int_of_str _) as [n|]; simpl; [|discriminate].
  by intros [= <-].
Qed.

(** X19: unless [AUTO_POST_TWEETS] is "true" (in any case of letters),
    [main] touches nothing: whether it returns or raises, no request has
    gone to the platform or to an image host and no file was written; when
    it returns, it reports 0 tweets posted and at most 5 generated. *)
Theorem main_without_auto_post (int_of_str : string -> option Z) (w : world) :
  (forall s, environ !! "AUTO_POST_TWEETS" = Some s ->
             ~ equals_true_ignoring_case s) ->
  let run := main environ news_get fromisoformat utc_now llm_ainvoke env
               int_of_str w in
  run.2 = w
  /\ forall generated posted,
       run.1 = inr (generated, posted) -> posted = 0 /\ generated <= 5.
Proof.
  intros Hflag run. unfold run, main.
  destruct (main_input_state int_of_str environ) as [input_state|] eqn:Hinput;
    [|by split].
  assert (read_auto_post input_state = false) as Hoff.
  { rewrite (main_input_state_read_auto_post _ _ Hinput).
    apply not_true_is_false. rewrite String.eqb_eq, lower_is_true.
    destruct (environ !! "AUTO_POST_TWEETS") as [s|] eqn:Hs; simpl.
    - by apply Hflag.
    - intros (c1 & c2 & c3 & c4 & Hfalse & _). discriminate Hfalse. }
  destruct (run_graph environ news_get fromisoformat utc_now llm_ainvoke env
              input_state w) as [[e|[posts results]] w'] eqn:Hrun; simpl.
  - split; [|discriminate].
    pose proof (run_graph_raise_world environ news_get fromisoformat utc_now
                  llm_ainvoke env input_state w e) as Hworld.
    rewrite Hrun in Hworld. by apply Hworld.
  - apply run_graph_inr in Hrun as (fetched & Hrun). cbv zeta in Hrun.
    destruct Hrun
      as (_ & _ & Htop & Hlen & Hrw & _ & Hauto & _ & Hpost).
    rewrite post_to_twitter_preview in Hpost by congruence.
    injection Hpost as <- <-. split; [done|].
    intros generated posted [= <- <-].
    split; [apply count_posted_previews | lia].
Qed.

(** X20: a run of [main] that ends in an exception has left the world as it
    was: nothing was posted, fetched from an image host or written.  The
    exception is the [ValueError] of [int] on [NUM_TWEETS_TO_POST], raised
    before the graph runs, or what [fetch_news] raised, or what a model
    call raised, or "Twitter clients not initialized properly". *)
Theorem main_raises_before_posting (int_of_str : string -> option Z)
    (w : world) (e : exn) :
  (main environ news_get fromisoformat utc_now llm_ainvoke env
     int_of_str w).1 = inl e ->
  (main environ news_get fromisoformat utc_now llm_ainvoke env
     int_of_str w).2 = w
  /\ (main_input_state int_of_str environ = None
      /\ e = IntValueError (default "2" (environ !! "NUM_TWEETS_TO_POST"))
      \/ exists input_state,
           main_input_state int_of_str environ = Some input_state
           /\ ((fetch_news environ news_get input_state).1 = inl e
               \/ e = ModelError
               \/ e = PlainException
                        "Twitter clients not initialized properly")).
Proof.
  unfold main.
  destruct (main_input_state int_of_str environ) as [input_state|] eqn:Hinput;
    simpl; [|intros [= <-]; split; [done | by left]].
  destruct (run_graph environ news_get fromisoformat utc_now llm_ainvoke env
              input_state w) as [[e'|[posts results]] w'] eqn:Hrun; simpl;
    [|discriminate].
  intros [= <-].
  pose proof (run_graph_raise_world environ news_get fromisoformat utc_now
                llm_ainvoke env input_state w e') as Hworld.
  rewrite Hrun in Hworld. simpl in Hworld.
  destruct (Hworld eq_refl) as [-> Hwhy].
  split; [done|]. right. by exists input_state.
Qed.

End GraphClaims.

(** A run on two records, one without a title, in preview mode, with no
    client at all: one article is fetched, ranked and rewritten, and one
    preview is returned. *)
Lemma run_graph_counts_witness :
  exists fetched,
    (fetch_news sample_environ
       (sample_news [sample_raw_untitled; sample_raw_good])
       (sample_state None (Some 2%Z))).1 = inr fetched
    /\ length ["Big news today"] = Nat.min 5 (length fetched)
    /\ Forall (fun post => String.length post <= 250) ["Big news today"]
    /\ length [preview_result "Big news today"] <= length ["Big news today"]
    /\ ((0 <= read_num_to_post (sample_state None (Some 2%Z)))%Z ->
        length [preview_result "Big news today"]
        = Nat.min (Z.to_nat (read_num_to_post (sample_state None (Some 2%Z))))
            (length ["Big news today"]))
    /\ count_posted [preview_result "Big news today"]
       <= length [preview_result "Big news today"]
    /\ post_attempts empty_world
       <= post_attempts empty_world
          + length [preview_result "Big news today"].
Proof.
  apply (run_graph_counts sample_environ
           (sample_news [sample_raw_untitled; sample_raw_good])
           sample_fromisoformat (fun _ => sample_now) sample_llm offline_env
           (sample_state None (Some 2%Z)) empty_world
           ["Big news today"] [preview_result "Big news today"] empty_world).
  vm_compute. reflexivity.
Defined.

(** A live run on one record: the result carries the post and the URL of
    the article. *)
Lemma run_graph_results_match_articles_witness :
  exists fetched top,
    (fetch_news sample_environ (sample_news [sample_raw_good])
       (sample_state (Some (AutoPostBool true)) (Some 2%Z))).1 = inr fetched
    /\ top = prioritize_articles sample_fromisoformat (fun _ => sample_now)
               (set_articles fetched
                  (sample_state (Some (AutoPostBool true)) (Some 2%Z)))
    /\ length top = length ["Big news today"]
    /\ forall i r,
         [posted_result
            (full_tweet "Big news today"
               (sample_article "BBC News" "2024-05-01T11:00:00Z" None))
            "1001"] !! i = Some r ->
         exists post a,
           ["Big news today"] !! i = Some post /\ top !! i = Some a
           /\ tweet_text r
              = if read_auto_post
                     (sample_state (Some (AutoPostBool true)) (Some 2%Z))
                then (post ++ String PyStr.LF (String PyStr.LF (url a)))%string
                else post.
Proof.
  apply (run_graph_results_match_articles sample_environ
           (sample_news [sample_raw_good])
           sample_fromisoformat (fun _ => sample_now) sample_llm healthy_env
           (sample_state (Some (AutoPostBool true)) (Some 2%Z)) empty_world
           ["Big news today"] _
           {| calls := [CreateTweet
                          (full_tweet "Big news today"
                             (sample_article "BBC News"
                                "2024-05-01T11:00:00Z" None)) None];
              tmp_files := ∅; open_files := ∅ |}).
  vm_compute. reflexivity.
Defined.

Lemma main_input_state_reads_environment_witness :
  exists b,
    Some (AutoPostBool true) = Some (AutoPostBool b)
    /\ true = b
    /\ (b = true <->
        exists s,
          ({[ "AUTO_POST_TWEETS" := "True" ]} : gmap string string)
            !! "AUTO_POST_TWEETS" = Some s
          /\ equals_true_ignoring_case s).
Proof.
  destruct (main_input_state_reads_environment
              {[ "AUTO_POST_TWEETS" := "True" ]} sample_int
              {| topic := Some "india"; articles := Some [];
                 top_articles := Some []; rewritten_tweets := Some [];
                 auto_post := Some (AutoPostBool true);
                 num_tweets_to_post := Some 2%Z;
                 tweet_results := Some [] |})
    as (_ & Hauto & _); [vm_compute; reflexivity|].
  exact Hauto.
Defined.

(** No [AUTO_POST_TWEETS] in the environment: the run is a preview. *)
Lemma main_without_auto_post_witness :
  let run := main sample_environ (sample_news [sample_raw_good])
               sample_fromisoformat (fun _ => sample_now) sample_llm
               healthy_env sample_int empty_world in
  run.2 = empty_world
  /\ forall generated posted,
       run.1 = inr (generated, posted) -> posted = 0 /\ generated <= 5.
Proof.
  apply (main_without_auto_post sample_environ (sample_news [sample_raw_good])
           sample_fromisoformat (fun _ => sample_now) sample_llm healthy_env
           sample_int empty_world).
  intros s Hs. vm_compute in Hs. discriminate Hs.
Defined.

(** No API key in the environment, auto-post on: [main] raises and nothing
    has been posted. *)
Lemma main_raises_before_posting_witness :
  (main {[ "AUTO_POST_TWEETS" := "true" ]} (sample_news [sample_raw_good])
     sample_fromisoformat (fun _ => sample_now) sample_llm healthy_env
     sample_int empty_world).2 = empty_world.
Proof.
  apply (main_raises_before_posting {[ "AUTO_POST_TWEETS" := "true" ]}
           (sample_news [sample_raw_good]) sample_fromisoformat
           (fun _ => sample_now) sample_llm healthy_env sample_int
           empty_world (ValueError "Missing News_Api_Key in .env")).
  vm_compute. reflexivity.
Defined.
